(** * wpsmith: the blueprint configuration document and the checkpoint store

    A shallow embedding of [src/lib/config.ts] (loadBlueprint, saveBlueprint,
    getPluginsFromBlueprint, createPluginSteps and the two path helpers) and
    of [src/commands/checkpoint.ts] (create, restore, delete, clear), with
    the properties the specification states about them. *)

From stdpp Require Import gmap strings list fin_maps pretty.
From Stdlib Require Strings.Byte.

Set Warnings "-register-all".
Local Open Scope string_scope.
Local Open Scope list_scope.

(** ** JavaScript values as the code meets them

    [fs.readJSON] hands the code whatever [JSON.parse] produced, so documents
    are JSON values.  The JavaScript value [undefined] (an absent property)
    is the [None] of [option json]. *)

Inductive json :=
  | JNull
  | JBool (b : bool)
  | JNum (n : Z)
  | JStr (s : string)
  | JArr (l : list json)
  | JObj (m : gmap string json).

(** What the modelled code can throw: a [TypeError] in a computation, a
    [SyntaxError] from [JSON.parse], an [IOError] from a file operation. *)
Inductive exn := TypeError | SyntaxError | IOError.

Inductive Res (A : Type) :=
  | Ok (a : A)
  | Throw (e : exn).
Arguments Ok {A} a.
Arguments Throw {A} e.

#[global] Instance Res_ret : MRet Res := λ A a, Ok a.
#[global] Instance Res_bind : MBind Res := λ A B f m,
  match m with Ok a => f a | Throw e => Throw e end.

(** [try { body } catch { handler }] *)
Definition try_catch {A} (body : Res A) (handler : exn → Res A) : Res A :=
  match body with Ok a => Ok a | Throw e => handler e end.

(** [!!v] *)
Definition truthy (v : option json) : bool :=
  match v with
  | None | Some JNull => false
  | Some (JBool b) => b
  | Some (JNum n) => negb (n =? 0)%Z
  | Some (JStr s) => negb (String.eqb s "")
  | Some (JArr _) | Some (JObj _) => true
  end.

(** The characters of a string, each as a one-character string. *)
Fixpoint chars (s : string) : list string :=
  match s with
  | EmptyString => []
  | String c s' => String c EmptyString :: chars s'
  end.

Definition indexed {A} (l : list A) : gmap string A :=
  list_to_map (imap (λ i x, (pretty i, x)) l).

(** The own enumerable properties of a value, which is what an object
    spread [{...v}] copies: nothing for [undefined], [null], booleans and
    numbers, the indexed elements of a string or an array, the entries of
    an object. *)
Definition props (v : option json) : gmap string json :=
  match v with
  | Some (JObj m) => m
  | Some (JArr l) => indexed l
  | Some (JStr s) => indexed (JStr <$> chars s)
  | _ => ∅
  end.

(** [{...a, ...b}]: the keys of [b] win. *)
Definition spread (a b : gmap string json) : gmap string json := b ∪ a.

(** Property read [v.k] for the keys the code reads ([step], [pluginData],
    [slug], [php], [wp]): a [TypeError] on [undefined] and [null], the own
    property otherwise. *)
Definition get (v : option json) (k : string) : Res (option json) :=
  match v with
  | None | Some JNull => Throw TypeError
  | _ => Ok (props v !! k)
  end.

(** [path.join(a, b)] glues its arguments with one separator and then
    normalises the result: empty and [.] segments go, a [..] segment takes
    the one before it away.  For a directory [a] in normal form, as the
    project path is, and a relative path [b] in normal form the result is
    the two glued, which is the definition here.  The code also hands it a
    name from the command line and the [file] of an index entry; there the
    definition is [path.join] for a plain name, and the properties of the
    commands ask for plain names.  Paths are compared as written. *)
Definition path_join (a b : string) : string := a +:+ "/" +:+ b.

Definition slash : Ascii.ascii := Ascii.ascii_of_nat 47.

Fixpoint has_slash (s : string) : bool :=
  match s with
  | EmptyString => false
  | String c s' => Ascii.eqb c slash || has_slash s'
  end.

(** A plain file name: one segment that [path.join] leaves as it is and
    that names an entry of the directory it is joined to, so not empty, not
    [.] or [..], and without a separator. *)
Definition plain (f : string) : Prop :=
  f ≠ "" ∧ f ≠ "." ∧ f ≠ ".." ∧ has_slash f = false.

Module Config.

(** *** src/lib/config.ts

    [loadBlueprint] and [saveBlueprint] touch one file,
    [path.join(projectPath, 'blueprint.json')]; its state is the [on_disk]
    argument below. *)

Definition BLUEPRINT_SCHEMA : string :=
  "https://playground.wordpress.net/blueprint-schema.json".

Definition DEFAULT_BLUEPRINT : gmap string json :=
  <["$schema" := JStr BLUEPRINT_SCHEMA]>
  (<["preferredVersions" :=
       JObj (<["php" := JStr "8.3"]> (<["wp" := JStr "latest"]> ∅))]>
  (<["wpsmith" := JObj (<["port" := JNum 9400]> ∅)]> ∅)).

(** What [blueprint.json] holds, as [fs.readJSON] sees it: no file (or an
    unreadable one), a text that [JSON.parse] rejects, or a JSON value. *)
Inductive on_disk :=
  | Absent
  | Malformed
  | Parsed (v : json).

Definition readJSON (d : on_disk) : Res json :=
  match d with
  | Absent => Throw IOError
  | Malformed => Throw SyntaxError
  | Parsed v => Ok v
  end.

(** [fs.writeJSON] where the write goes through: [JSON.parse] reads back
    the value [JSON.stringify] wrote.  A write that fails (the target is a
    directory, or cannot be written) is not modelled. *)
Definition writeJSON (v : json) : on_disk := Parsed v.

Definition loadBlueprint (d : on_disk) : Res (gmap string json) :=
  try_catch
    (blueprint ← readJSON d;
     Ok (spread DEFAULT_BLUEPRINT (props (Some blueprint))))
    (λ _, Ok DEFAULT_BLUEPRINT).

(** The document [saveBlueprint] writes, given the loaded one. *)
Definition merge (existing blueprint : gmap string json) : gmap string json :=
  let merged :=
    <["wpsmith" := JObj (spread (props (existing !! "wpsmith"))
                                (props (blueprint !! "wpsmith")))]>
    (<["preferredVersions" :=
         JObj (spread (props (existing !! "preferredVersions"))
                      (props (blueprint !! "preferredVersions")))]>
    (spread existing blueprint)) in
  spread (<["$schema" := JStr BLUEPRINT_SCHEMA]> ∅) merged.

Definition saveBlueprint (d : on_disk) (blueprint : gmap string json)
  : Res on_disk :=
  existing ← loadBlueprint d;
  Ok (writeJSON (JObj (merge existing blueprint))).

(** [Array.prototype.filter] with a callback that may throw. *)
Fixpoint filterM {A} (p : A → Res bool) (l : list A) : Res (list A) :=
  match l with
  | [] => Ok []
  | x :: l' =>
      keep ← p x;
      rest ← filterM p l';
      Ok (if keep : bool then x :: rest else rest)
  end.

(** [Array.prototype.map] with a callback that may throw. *)
Fixpoint mapM_res {A B} (f : A → Res B) (l : list A) : Res (list B) :=
  match l with
  | [] => Ok []
  | x :: l' =>
      y ← f x;
      rest ← mapM_res f l';
      Ok (y :: rest)
  end.

(** [v.filter]: only an array has the method. *)
Definition as_array (v : option json) : Res (list json) :=
  match v with
  | Some (JArr l) => Ok l
  | _ => Throw TypeError
  end.

(** [k in v] *)
Definition has_in (k : string) (v : json) : Res bool :=
  match v with
  | JObj m => Ok (bool_decide (is_Some (m !! k)))
  | JArr l => Ok (bool_decide (is_Some (indexed l !! k)))
  | _ => Throw TypeError
  end.

(** [v === 'installPlugin'] *)
Definition is_tag (t : string) (v : option json) : bool :=
  match v with
  | Some (JStr s) => String.eqb s t
  | _ => false
  end.

(** [step.step === 'installPlugin' && 'pluginData' in step] *)
Definition is_install_plugin (step : json) : Res bool :=
  tag ← get (Some step) "step";
  if is_tag "installPlugin" tag then has_in "pluginData" step else Ok false.

(** [step.pluginData.slug] *)
Definition slug_of (step : json) : Res (option json) :=
  pluginData ← get (Some step) "pluginData";
  get pluginData "slug".

(** [slugs.filter(slug => !!slug)] *)
Definition keep_truthy (slugs : list (option json)) : list json :=
  omap (λ slug, if truthy slug then slug else None) slugs.

(** [steps.filter(...).map(...).filter(...)]: the three passes over the
    array of steps. *)
Definition passes (steps : list json) : Res (list json) :=
  picked ← filterM is_install_plugin steps;
  slugs ← mapM_res slug_of picked;
  Ok (keep_truthy slugs).

Definition getPluginsFromBlueprint (blueprint : gmap string json)
  : Res (list json) :=
  if negb (truthy (blueprint !! "steps")) then Ok []
  else
    steps ← as_array (blueprint !! "steps");
    passes steps.

(** The step [createPluginSteps] makes of a slug. *)
Definition install_plugin_step (slug : string) : json :=
  JObj {[ "step" := JStr "installPlugin";
          "pluginData" := JObj {[ "resource" := JStr "wordpress.org/plugins";
                                  "slug" := JStr slug ]} ]}.

Definition createPluginSteps (plugins : list string) : list json :=
  install_plugin_step <$> plugins.

(** **** The [Blueprint] interface, read on JSON values

    A step is an object with a string [step]; the [pluginData] of an
    install-plugin step, when there is one, is a [PluginData] object, whose
    [slug] is optional and a string. *)

Definition is_variant (t : string) (step : json) : bool :=
  match step with
  | JObj m => is_tag t (m !! "step")
  | _ => false
  end.

Definition typed_plugin_data (v : json) : bool :=
  match v with
  | JObj pd =>
      match pd !! "slug" with
      | None | Some (JStr _) => true
      | Some _ => false
      end
  | _ => false
  end.

Definition typed_step (step : json) : bool :=
  match step with
  | JObj m =>
      match m !! "step" with
      | Some (JStr t) =>
          if String.eqb t "installPlugin"
          then from_option typed_plugin_data true (m !! "pluginData")
          else true
      | _ => false
      end
  | _ => false
  end.

(** A set-options step. *)
Definition set_options_step (options : gmap string string) : json :=
  JObj {[ "step" := JStr "setSiteOptions";
          "options" := JObj (JStr <$> options) ]}.

(** A plugin installed from a URL: its [pluginData] has no [slug]. *)
Definition url_plugin_step : json :=
  JObj {[ "step" := JStr "installPlugin";
          "pluginData" := JObj {[ "resource" := JStr "url";
                                  "url" := JStr "https://example.com/p.zip" ]} ]}.

(** An install-plugin step that has no [pluginData], or whose [pluginData]
    has no [slug] or the empty one. *)
Definition lacks_slug (step : json) : Prop :=
  ∃ m, step = JObj m ∧ m !! "step" = Some (JStr "installPlugin") ∧
    (m !! "pluginData" = None ∨
     ∃ pd, m !! "pluginData" = Some (JObj pd) ∧
       (pd !! "slug" = None ∨ pd !! "slug" = Some (JStr ""))).

(** **** Derive plugin list, in the words of the specification

    Keep the steps of the install-plugin variant and project out the plugin
    identifier, in order. *)
Definition plugin_identifier (step : json) : option string :=
  match step with
  | JObj m =>
      if is_tag "installPlugin" (m !! "step") then
        match m !! "pluginData" with
        | Some (JObj pd) =>
            match pd !! "slug" with
            | Some (JStr s) => if String.eqb s "" then None else Some s
            | _ => None
            end
        | _ => None
        end
      else None
  | _ => None
  end.

Definition derive_plugin_list (steps : list json) : list string :=
  omap plugin_identifier steps.

(** The documents of the examples: a blueprint that names the WordPress
    version only, [{ "preferredVersions": { "wp": "6.7" } }], as a file
    content and as the argument of [saveBlueprint]. *)
Definition wp_update : gmap string json :=
  {[ "preferredVersions" := JObj {[ "wp" := JStr "6.7" ]} ]}.

Definition wp_only_document : json := JObj wp_update.

Definition getDatabasePath (projectPath : string) : string :=
  path_join projectPath "wp-content/database/.ht.sqlite".

Definition getCheckpointsPath (projectPath : string) : string :=
  path_join projectPath "wp-content/database/checkpoints".

End Config.

Module Checkpoint.

(** *** src/commands/checkpoint.ts *)

Record Entry := {
  name : string;
  created : string;
  file : string;
  description : option string;
}.

Record CheckpointMeta := { checkpoints : list Entry }.

(** What a file holds, as the commands can tell.  [fs.copy] moves a content
    as it is.  For [fs.readJSON] there are three kinds of file:
    - [Data]: a file whose text is not JSON (a database, for one), on which
      [JSON.parse] throws;
    - [Index]: a file that holds a serialised index, an object whose
      [checkpoints] is an array of entries;
    - [NoIndex]: a file that holds another JSON value, in which
      [meta.checkpoints] is [undefined] or [null], or which is [null]
      itself: [{}], [[]], a number, a string.  [fs.readJSON] resolves on it,
      and the first use of [meta.checkpoints] throws a [TypeError].
    A JSON text whose [checkpoints] is there without being an array of
    entries is outside the model. *)
Inductive content :=
  | Data (bytes : list Byte.byte)
  | Index (meta : CheckpointMeta)
  | NoIndex.

(** The file system: the regular files by path.  Directories are not
    modelled: [fs.ensureDir] has nothing to do, and the model speaks of the
    states in which every path the commands touch (the live paths,
    [meta.json], the files of the entries, the snapshot path of a new name)
    is a regular file or is not there.  No operation fails for want of
    permissions or space. *)
Abbreviation FS := (gmap string content).

Definition pathExists (p : string) (fs : FS) : bool :=
  bool_decide (is_Some (fs !! p)).

(** [fs.copy(src, dest)] overwrites [dest]. *)
Definition copy (src dest : string) (fs : FS) : Res FS :=
  match fs !! src with
  | Some c => Ok (<[dest := c]> fs)
  | None => Throw IOError
  end.

(** [fs.remove(p).catch(() => {})] for the path of a regular file. *)
Definition remove (p : string) (fs : FS) : FS := delete p fs.

(** What [fs.readJSON] resolves to: an index, or a value without one. *)
Inductive document :=
  | Typed (meta : CheckpointMeta)
  | Untyped.

Definition readJSON (p : string) (fs : FS) : Res document :=
  match fs !! p with
  | Some (Index meta) => Ok (Typed meta)
  | Some NoIndex => Ok Untyped
  | Some (Data _) => Throw SyntaxError
  | None => Throw IOError
  end.

Definition writeJSON (p : string) (meta : CheckpointMeta) (fs : FS) : FS :=
  <[p := Index meta]> fs.

(** [fs.readJSON(metaPath).catch(() => ({ checkpoints: [] }))]: the handler
    sees the failures of reading and parsing, and nothing else. *)
Definition read_meta (metaPath : string) (fs : FS) : document :=
  match readJSON metaPath fs with
  | Ok meta => meta
  | Throw _ => Typed {| checkpoints := [] |}
  end.

(** [meta.checkpoints] where the code goes on to use it ([.length],
    [.push], [.findIndex]): a [TypeError] when there is none. *)
Definition checkpoints_of (meta : document) : Res (list Entry) :=
  match meta with
  | Typed meta => Ok (checkpoints meta)
  | Untyped => Throw TypeError
  end.

(** The ways a command ends other than well: it prints an error and leaves
    with [process.exit(1)], or an error reaches no handler and the process
    dies with it. *)
Inductive failure :=
  | NoLiveData      (* 'Error: No database found. ...' *)
  | DuplicateName   (* 'Checkpoint "..." already exists.' *)
  | NotFound        (* 'No checkpoints found.', 'Checkpoint "..." not found.' *)
  | MissingFile     (* 'Checkpoint file not found: ...' *)
  | IOFailure       (* the [catch] blocks *)
  | Uncaught.       (* an error outside every [try] *)

Inductive exit :=
  | Success
  | Failure (why : failure).

(** Truthiness of an optional string argument: the empty string counts as
    no argument. *)
Definition given (arg : option string) : option string :=
  match arg with
  | Some s => if String.eqb s "" then None else Some s
  | None => None
  end.

(** [cp => cp.name === n] *)
Definition named (n : string) (cp : Entry) : Prop := name cp = n.

#[global] Instance named_dec n cp : Decision (named n cp) :=
  decide (name cp = n).

Definition metaPathOf (checkpointDir : string) : string :=
  path_join checkpointDir "meta.json".

(** [name || `checkpoint-${timestamp}`] *)
Definition checkpointNameOf (timestamp : N) (name : option string) : string :=
  default ("checkpoint-" +:+ pretty timestamp) (given name).

(** [checkpoint [name]]; [timestamp] is [Date.now()] and [iso] is
    [new Date().toISOString()]. *)
Definition checkpointCreate (projectPath : string) (timestamp : N)
    (iso : string) (name description : option string) (fs : FS) : exit * FS :=
  let dbPath := Config.getDatabasePath projectPath in
  let checkpointDir := Config.getCheckpointsPath projectPath in
  if negb (pathExists dbPath fs) then (Failure NoLiveData, fs)
  else
    let checkpointName := checkpointNameOf timestamp name in
    let checkpointFile := checkpointName +:+ ".sqlite" in
    let checkpointPath := path_join checkpointDir checkpointFile in
    if pathExists checkpointPath fs then (Failure DuplicateName, fs)
    else
      match copy dbPath checkpointPath fs with
      | Throw _ => (Failure IOFailure, fs)
      | Ok fs1 =>
          let metaPath := metaPathOf checkpointDir in
          let meta := read_meta metaPath fs1 in
          match checkpoints_of meta with
          | Throw _ => (Failure IOFailure, fs1)
          | Ok entries =>
              let meta' :=
                {| checkpoints :=
                     entries ++
                     [ {| name := checkpointName;
                          created := iso;
                          file := checkpointFile;
                          description := description |} ] |} in
              (Success, writeJSON metaPath meta' fs1)
          end
      end.

(** [checkpoint:list]: the entries, newest first. *)
Definition checkpointList (projectPath : string) (fs : FS)
  : Res (list Entry) :=
  let checkpointDir := Config.getCheckpointsPath projectPath in
  match checkpoints_of (read_meta (metaPathOf checkpointDir) fs) with
  | Ok entries => Ok (reverse entries)
  | Throw e => Throw e
  end.

(** The entry [rollback] picks: [meta.checkpoints.find(...)] for a name,
    [meta.checkpoints[meta.checkpoints.length - 1]] without one. *)
Definition select (name : option string) (entries : list Entry)
  : option Entry :=
  match given name with
  | Some n => snd <$> list_find (named n) entries
  | None => entries !! (length entries - 1)
  end.

(** [rollback [name]] *)
Definition checkpointRestore (projectPath : string) (name : option string)
    (fs : FS) : exit * FS :=
  let dbPath := Config.getDatabasePath projectPath in
  let checkpointDir := Config.getCheckpointsPath projectPath in
  let metaPath := metaPathOf checkpointDir in
  let meta := read_meta metaPath fs in
  match checkpoints_of meta with
  | Throw _ => (Failure Uncaught, fs)
  | Ok entries =>
      if bool_decide (length entries = 0) then (Failure NotFound, fs)
      else
        match select name entries with
        | None => (Failure NotFound, fs)
        | Some checkpoint =>
            let checkpointPath := path_join checkpointDir (file checkpoint) in
            if negb (pathExists checkpointPath fs)
            then (Failure MissingFile, fs)
            else
              let fs1 := remove dbPath fs in
              let fs2 := remove (dbPath +:+ "-journal") fs1 in
              let fs3 := remove (dbPath +:+ "-wal") fs2 in
              let fs4 := remove (dbPath +:+ "-shm") fs3 in
              match copy checkpointPath dbPath fs4 with
              | Throw _ => (Failure IOFailure, fs4)
              | Ok fs5 => (Success, fs5)
              end
        end
  end.

(** [checkpoint:delete <name>] *)
Definition checkpointDelete (projectPath : string) (name : string) (fs : FS)
  : exit * FS :=
  let checkpointDir := Config.getCheckpointsPath projectPath in
  let metaPath := metaPathOf checkpointDir in
  let meta := read_meta metaPath fs in
  match checkpoints_of meta with
  | Throw _ => (Failure Uncaught, fs)
  | Ok entries =>
      match list_find (named name) entries with
      | None => (Failure NotFound, fs)
      | Some (index, checkpoint) =>
          let checkpointPath := path_join checkpointDir (file checkpoint) in
          let fs1 := remove checkpointPath fs in
          let meta' := {| checkpoints := delete index entries |} in
          (Success, writeJSON metaPath meta' fs1)
      end
  end.

(** [checkpoint:clear]; [confirmed] is the [--force] flag or the answer to
    the prompt. *)
Definition checkpointClear (projectPath : string) (confirmed : bool) (fs : FS)
  : exit * FS :=
  let checkpointDir := Config.getCheckpointsPath projectPath in
  let metaPath := metaPathOf checkpointDir in
  let meta := read_meta metaPath fs in
  match checkpoints_of meta with
  | Throw _ => (Failure Uncaught, fs)
  | Ok entries =>
      if bool_decide (length entries = 0) then (Success, fs)
      else if negb confirmed then (Success, fs)
      else
        let fs1 :=
          foldl (λ acc cp, remove (path_join checkpointDir (file cp)) acc)
                fs entries in
        (Success, writeJSON metaPath {| checkpoints := [] |} fs1)
  end.

(** **** The store of one project, as the specification speaks of it *)

(** The persisted index: the entries of [meta.json], none when the file is
    not there, is not JSON or holds no index. *)
Definition index (projectPath : string) (fs : FS) : list Entry :=
  match
    checkpoints_of
      (read_meta (metaPathOf (Config.getCheckpointsPath projectPath)) fs)
  with
  | Ok entries => entries
  | Throw _ => []
  end.

(** [meta.json] gives the commands a [meta.checkpoints] to work on: it is
    not there, is not JSON, or holds an index. *)
Definition readable_index (projectPath : string) (fs : FS) : Prop :=
  fs !! metaPathOf (Config.getCheckpointsPath projectPath) ≠ Some NoIndex.

(** The path of the snapshot file of a name. *)
Definition snapshotPath (projectPath name : string) : string :=
  path_join (Config.getCheckpointsPath projectPath) (name +:+ ".sqlite").

(** The live data file and its sidecars. *)
Definition livePaths (projectPath : string) : list string :=
  let dbPath := Config.getDatabasePath projectPath in
  [dbPath; dbPath +:+ "-journal"; dbPath +:+ "-wal"; dbPath +:+ "-shm"].

(** Two states of the file system that differ in the live files at most:
    what the server may have done to the database between two commands. *)
Definition same_snapshots (projectPath : string) (fs1 fs2 : FS) : Prop :=
  ∀ p, p ∉ livePaths projectPath → fs2 !! p = fs1 !! p.

(** Data model of the index: the file of an entry is derived from its
    name. *)
Definition derived_files (entries : list Entry) : Prop :=
  Forall (λ cp, file cp = name cp +:+ ".sqlite") entries.

(** The files of an index are plain names. *)
Definition plain_files (entries : list Entry) : Prop :=
  Forall (λ cp, plain (file cp)) entries.

(** What can happen to the store of a project: one of the commands runs, or
    the server rewrites the live files. *)
Inductive command :=
  | Create (timestamp : N) (iso : string) (name description : option string)
  | Restore (name : option string)
  | Delete (name : string)
  | Clear (confirmed : bool).

Definition run (projectPath : string) (cmd : command) (fs : FS) : exit * FS :=
  match cmd with
  | Create timestamp iso name description =>
      checkpointCreate projectPath timestamp iso name description fs
  | Restore name => checkpointRestore projectPath name fs
  | Delete name => checkpointDelete projectPath name fs
  | Clear confirmed => checkpointClear projectPath confirmed fs
  end.

(** A name for Create that has no separator in it; one made from the
    timestamp has none. *)
Definition plain_name (name : option string) : Prop :=
  ∀ n, name = Some n → has_slash n = false.

Definition plain_command (cmd : command) : Prop :=
  match cmd with
  | Create _ _ name _ => plain_name name
  | _ => True
  end.

(** The states the commands, given plain names, and the server bring
    about. *)
Inductive reachable (projectPath : string) (fs0 : FS) : FS → Prop :=
  | reachable_start : reachable projectPath fs0 fs0
  | reachable_run cmd fs :
      plain_command cmd →
      reachable projectPath fs0 fs →
      reachable projectPath fs0 (run projectPath cmd fs).2
  | reachable_server fs fs' :
      reachable projectPath fs0 fs →
      same_snapshots projectPath fs fs' →
      reachable projectPath fs0 fs'.

(** **** Sample data *)

Definition site : string := "/site".

Definition noon : string := "2026-01-01T12:00:00.000Z".

Definition bytes_a : content := Data [Byte.x61].
Definition bytes_b : content := Data [Byte.x62].
Definition bytes_c : content := Data [Byte.x63].
Definition bytes_d : content := Data [Byte.x64].

(** A project whose database is an empty file and that has no checkpoint
    yet. *)
Definition fresh_site : FS := {[ Config.getDatabasePath site := Data [] ]}.

(** The server replaces the content of the database. *)
Definition server_writes (c : content) (fs : FS) : FS :=
  <[Config.getDatabasePath site := c]> fs.

Definition entry_of (n : string) : Entry :=
  {| name := n; created := noon; file := n +:+ ".sqlite";
     description := None |}.

(** A project with the checkpoints "x" and "y"; the backing file of "x" is
    gone. *)
Definition site_xy : FS :=
  {[ Config.getDatabasePath site := bytes_a;
     snapshotPath site "y" := bytes_b;
     metaPathOf (Config.getCheckpointsPath site) :=
       Index {| checkpoints := [entry_of "x"; entry_of "y"] |} ]}.

(** An index out of step with the directory: it has an entry named "x"
    whose file is not derived from the name, and "x.sqlite" is not there. *)
Definition site_stale : FS :=
  {[ Config.getDatabasePath site := bytes_a;
     path_join (Config.getCheckpointsPath site) "old.sqlite" := bytes_b;
     metaPathOf (Config.getCheckpointsPath site) :=
       Index {| checkpoints :=
                  [ {| name := "x"; created := noon; file := "old.sqlite";
                       description := None |} ] |} ]}.

(** A project whose [meta.json] is [{}]. *)
Definition site_no_index : FS :=
  {[ Config.getDatabasePath site := bytes_a;
     metaPathOf (Config.getCheckpointsPath site) := NoIndex ]}.

(** Three checkpoints A, B and C taken while the database holds [a], [b]
    and [c], and the database rewritten afterwards. *)
Definition after_abc : FS :=
  let fs1 := (checkpointCreate site 1 noon (Some "A") None
                (server_writes bytes_a fresh_site)).2 in
  let fs2 := (checkpointCreate site 2 noon (Some "B") None
                (server_writes bytes_b fs1)).2 in
  let fs3 := (checkpointCreate site 3 noon (Some "C") None
                (server_writes bytes_c fs2)).2 in
  server_writes bytes_d fs3.

End Checkpoint.

Module Store.

(** *** The checkpoint store when nothing but the commands and the server
    touches it *)

Import Checkpoint.

(** Every entry of the index has its backing file. *)
Definition backed (projectPath : string) (fs : FS) : Prop :=
  Forall
    (λ cp, is_Some
             (fs !! path_join (Config.getCheckpointsPath projectPath) (file cp)))
    (index projectPath fs).

(** The index and the directory agree: files are derived from names, names
    are non-empty and occur once, and every entry has its file. *)
Definition consistent (projectPath : string) (fs : FS) : Prop :=
  derived_files (index projectPath fs) ∧
  Forall (λ cp, name cp ≠ "") (index projectPath fs) ∧
  NoDup (name <$> index projectPath fs) ∧
  backed projectPath fs.

End Store.

Module Steps.

(** *** Steps outside the [Blueprint] interface *)

(** A step on which the code throws: [null], or an install-plugin step
    whose [pluginData] is [null]. *)
Definition breaks (step : json) : Prop :=
  step = JNull ∨
  ∃ m, step = JObj m ∧ m !! "step" = Some (JStr "installPlugin") ∧
    m !! "pluginData" = Some JNull.

End Steps.

Module New.

(** *** src/commands/new.ts: the plugins of a new project and its
    [blueprint.json] *)

(** The options the action reads after the prompts: the versions, the
    plugins ticked in the prompt (absent without a prompt) and the three
    [--with-...] flags. *)
Record options := {
  wp : string;
  php : string;
  plugins : option (list string);
  withWoocommerce : bool;
  withGutenberg : bool;
  withQueryMonitor : bool;
}.

(** [options.plugins || []] and the three [push]es. *)
Definition pluginsOf (o : options) : list string :=
  let plugins := default [] (plugins o) in
  let plugins :=
    if withWoocommerce o then plugins ++ ["woocommerce"] else plugins in
  let plugins :=
    if withGutenberg o then plugins ++ ["gutenberg"] else plugins in
  if withQueryMonitor o then plugins ++ ["query-monitor"] else plugins.

(** [parseInt(options.port)] is an integer or, for a text that does not
    start with one, [NaN] (an infinity, for a text of some hundreds of
    digits); the action does not look at which.  What is not a finite number
    is the [None] here, and [JSON.stringify] writes it as [null]. *)
Definition port_value (port : option Z) : json :=
  match port with
  | Some p => JNum p
  | None => JNull
  end.

(** The argument of [saveBlueprint]; [port] is [parseInt(options.port)]. *)
Definition blueprintOf (o : options) (port : option Z) : gmap string json :=
  {[ "$schema" := JStr "https://playground.wordpress.net/blueprint-schema.json";
     "preferredVersions" := JObj {[ "php" := JStr (php o);
                                    "wp" := JStr (wp o) ]};
     "steps" := JArr (Config.createPluginSteps (pluginsOf o));
     "wpsmith" := JObj {[ "port" := port_value port ]} ]}.

(** Creating [blueprint.json]. *)
Definition createBlueprint (d : Config.on_disk) (o : options)
    (port : option Z) : Res Config.on_disk :=
  Config.saveBlueprint d (blueprintOf o port).

End New.

Module Serve.

(** *** src/commands/serve.ts (the arguments of the Playground server) and
    the URL of [db:fresh] in src/commands/wp.ts *)

(** [String(v)], which a template literal applies too.  A number is an
    integer, printed with all its digits, as [String] prints it below
    [1e21]. *)
Fixpoint js_string (v : json) : string :=
  match v with
  | JNull => "null"
  | JBool b => if b then "true" else "false"
  | JNum n => pretty n
  | JStr s => s
  | JArr l =>
      String.concat ","
        ((λ x, match x with JNull => "" | _ => js_string x end) <$> l)
  | JObj _ => "[object Object]"
  end.

Definition to_String (v : option json) : string :=
  match v with
  | None => "undefined"
  | Some v => js_string v
  end.

(** [v?.k] *)
Definition get_opt (v : option json) (k : string) : option json :=
  match v with
  | None | Some JNull => None
  | _ => props v !! k
  end.

(** [a || b] *)
Definition or_else (a b : option json) : option json :=
  if truthy a then a else b.

(** [v !== 'latest'] *)
Definition is_not (t : string) (v : option json) : bool :=
  match v with
  | Some (JStr s) => negb (String.eqb s t)
  | _ => true
  end.

(** The options of [serve] that matter for the arguments. *)
Record options := {
  port : option string;
  php : option string;
  wp : option string;
  xdebug : bool;
}.

(** The text handed to [parseInt]:
    [options.port || String(blueprint.wpsmith?.port) || '9400']. *)
Definition requestedPortText (o : options) (blueprint : gmap string json)
  : string :=
  to_String
    (or_else
       (or_else (JStr <$> port o)
          (Some (JStr (to_String (get_opt (blueprint !! "wpsmith") "port")))))
       (Some (JStr "9400"))).

(** [options.php || blueprint.preferredVersions?.php || '8.3'] *)
Definition phpOf (o : options) (blueprint : gmap string json) : option json :=
  or_else
    (or_else (JStr <$> php o)
       (get_opt (blueprint !! "preferredVersions") "php"))
    (Some (JStr "8.3")).

(** [options.wp || blueprint.preferredVersions?.wp] *)
Definition wpOf (o : options) (blueprint : gmap string json) : option json :=
  or_else (JStr <$> wp o) (get_opt (blueprint !! "preferredVersions") "wp").

(** The arguments given to [npx]; [detected] is the port [detectPort]
    answered. *)
Definition serveArgs (projectPath : string) (o : options)
    (blueprint : gmap string json) (detected : N) : list string :=
  let php := phpOf o blueprint in
  let wp := wpOf o blueprint in
  [ "--yes"; "@wp-playground/cli"; "server";
    "--wordpress-install-mode=do-not-attempt-installing";
    "--skip-sqlite-setup";
    "--mount=" +:+ projectPath +:+ ":/wordpress";
    "--port=" +:+ pretty detected;
    "--php=" +:+ to_String php ]
  ++ (if truthy wp && is_not "latest" wp then ["--wp=" +:+ to_String wp]
      else [])
  ++ (if xdebug o then ["--xdebug"] else [])
  ++ ["--login"].

(** [db:fresh]:
    [`--url=http://localhost:${blueprint.wpsmith?.port || 9400}`] *)
Definition freshUrl (blueprint : gmap string json) : string :=
  "--url=http://localhost:" +:+
  to_String (or_else (get_opt (blueprint !! "wpsmith") "port")
                     (Some (JNum 9400))).

(** A [blueprint.json] that says nothing of a runtime version: it cannot be
    read, or it has no [preferredVersions], or that object has neither
    [php] nor [wp]. *)
Definition versions_unset (d : Config.on_disk) : Prop :=
  match d with
  | Config.Parsed v =>
      props (Some v) !! "preferredVersions" = None ∨
      ∃ m, props (Some v) !! "preferredVersions" = Some (JObj m) ∧
        m !! "php" = None ∧ m !! "wp" = None
  | _ => True
  end.

End Serve.

Module Utils.

(** *** src/lib/utils.ts

    A directory is an absolute path in normal form, given by its segments
    from the root; the root is the empty list.  [existsSync] is the file
    system as [fs.existsSync] answers for it. *)

Abbreviation dir := (list string).

(** [path.join(dir, name)] for a file name *)
Definition join (d : dir) (name : string) : dir := d ++ [name].

(** [path.dirname(dir)]: the root is its own parent. *)
Definition dirname (d : dir) : dir := take (length d - 1) d.

Definition isWordPressProject (existsSync : dir → bool) (d : dir) : bool :=
  existsSync (join d ".wordsmith.json") || existsSync (join d "wp-config.php").

(** The [while] loop of [getProjectPath], at most [fuel] turns of it. *)
Fixpoint walk (existsSync : dir → bool) (fuel : nat) (d : dir) : option dir :=
  match fuel with
  | 0 => None
  | S fuel' =>
      if bool_decide (d ≠ dirname d) then
        if existsSync (join d ".wordsmith.json")
           || existsSync (join d "wp-config.php")
        then Some d
        else walk existsSync fuel' (dirname d)
      else None
  end.

(** [getProjectPath()], with [cwd] for [process.cwd()]; [None] is the exit
    with status 1.  The loop climbs one segment a turn, so [S (length cwd)]
    turns are enough to leave it. *)
Definition getProjectPath (existsSync : dir → bool) (cwd : dir) : option dir :=
  match walk existsSync (S (length cwd)) cwd with
  | Some d => Some d
  | None =>
      if existsSync (join cwd "wp-config.php") then Some cwd else None
  end.

(** [formatRelativeTime(date)]; [now] and [date] are the two [getTime()], in
    milliseconds, and [Math.floor] of a quotient is the floor division of
    [Z]. *)
Definition formatRelativeTime (now date : Z) : string :=
  let diff := (now - date)%Z in
  let seconds := (diff / 1000)%Z in
  let minutes := (seconds / 60)%Z in
  let hours := (minutes / 60)%Z in
  let days := (hours / 24)%Z in
  if (0 <? days)%Z then
    pretty days +:+ " day" +:+ (if (1 <? days)%Z then "s" else "") +:+ " ago"
  else if (0 <? hours)%Z then
    pretty hours +:+ " hour" +:+ (if (1 <? hours)%Z then "s" else "")
    +:+ " ago"
  else if (0 <? minutes)%Z then
    pretty minutes +:+ " min" +:+ (if (1 <? minutes)%Z then "s" else "")
    +:+ " ago"
  else "just now".

(** A file system for the examples: a project in [/home/me/site], marked by
    its [wp-config.php]. *)
Definition sample_exists (p : dir) : bool :=
  bool_decide (p = ["home"; "me"; "site"; "wp-config.php"]).

End Utils.

Module WpCli.

(** *** src/lib/wpcli.ts, and the arguments the commands of
    src/commands/wp.ts build with it *)

Definition space : Ascii.ascii := Ascii.ascii_of_nat 32.

(** White space of [String.prototype.trim] among the ASCII characters: tab,
    line feed, vertical tab, form feed, carriage return, space. *)
Definition is_ws (c : Ascii.ascii) : bool :=
  let n := Ascii.nat_of_ascii c in
  (Nat.leb 9 n && Nat.leb n 13) || Nat.eqb n 32.

Fixpoint drop_ws (s : string) : string :=
  match s with
  | EmptyString => EmptyString
  | String c s' => if is_ws c then drop_ws s' else s
  end.

Definition trim (s : string) : string :=
  String.rev (drop_ws (String.rev (drop_ws s))).

(** [findWpCliPath()].  The module variable [cachedWpPath] is threaded
    through; [which] is what [execSync('which wp')] does when it is called:
    it gives the output or throws. *)
Definition findWpCliPath (which : Res string) (cachedWpPath : option string)
  : string * option string :=
  match Checkpoint.given cachedWpPath with
  | Some path => (path, cachedWpPath)
  | None =>
      match which with
      | Ok out => (trim out, Some (trim out))
      | Throw _ => ("wp", cachedWpPath)
      end
  end.

Definition getWpCliPrefixArgs (which : Res string)
    (cachedWpPath : option string) : list string * option string :=
  let '(path, cache) := findWpCliPath which cachedWpPath in
  (["-d"; "memory_limit=512M"; path], cache).

Definition buildWpArgs (which : Res string) (cachedWpPath : option string)
    (args : list string) : list string * option string :=
  let '(prefix, cache) := getWpCliPrefixArgs which cachedWpPath in
  (prefix ++ args, cache).

(** [command.split(' ')] *)
Fixpoint split_space (s : string) : list string :=
  match s with
  | EmptyString => [EmptyString]
  | String c s' =>
      if Ascii.eqb c space then EmptyString :: split_space s'
      else
        match split_space s' with
        | word :: words => String c word :: words
        | [] => [String c EmptyString]
        end
  end.

Fixpoint has_space (s : string) : bool :=
  match s with
  | EmptyString => false
  | String c s' => Ascii.eqb c space || has_space s'
  end.

(** The arguments of one step of a seeder ([runSeeder]):
    [step.command.split(' ')] and the pushed [--path]. *)
Definition seederArgs (projectPath command : string) : list string :=
  split_space command ++ ["--path=" +:+ projectPath].

End WpCli.

Module WpConfig.

(** *** src/lib/config.ts, [createWpConfig]: the text written back to
    [wp-config.php] *)

(** [s] without its prefix [p], when it starts with [p]. *)
Fixpoint strip_prefix (p s : string) : option string :=
  match p, s with
  | EmptyString, _ => Some s
  | String a p', String b s' =>
      if Ascii.eqb a b then strip_prefix p' s' else None
  | String _ _, EmptyString => None
  end.

(** [s.replace(pattern, replacement)] for a string pattern and a replacement
    without [$]: the first occurrence is replaced. *)
Fixpoint replace_first (pattern replacement s : string) : string :=
  match strip_prefix pattern s with
  | Some rest => replacement +:+ rest
  | None =>
      match s with
      | EmptyString => EmptyString
      | String c s' => String c (replace_first pattern replacement s')
      end
  end.

Definition stop_editing : string := "/* That's all, stop editing!".

Definition js_bool (b : bool) : string := if b then "true" else "false".

Definition extraConfig (port : Z) (debug : bool) : string :=
"
// SQLite Database Configuration
define('DB_DIR', __DIR__ . '/wp-content/database/');
define('DB_FILE', '.ht.sqlite');

// Development Settings
define('WP_DEBUG', " +:+ js_bool debug +:+ ");
define('WP_DEBUG_LOG', " +:+ js_bool debug +:+ ");
define('WP_DEBUG_DISPLAY', false);
define('SCRIPT_DEBUG', " +:+ js_bool debug +:+ ");
define('SAVEQUERIES', " +:+ js_bool debug +:+ ");

// WPSmith Configuration
define('WPSMITH_PORT', " +:+ pretty port +:+ ");
".

Definition newline : string := String (Ascii.ascii_of_nat 10) EmptyString.

(** What [createWpConfig] makes of the text WP-CLI generated; [port] is
    [options.port] when it is a number other than [NaN], [debug] is
    [options.debug]. *)
Definition configText (port : option Z) (debug : option bool)
    (config : string) : string :=
  let port :=
    match port with
    | Some p => if (p =? 0)%Z then 9400%Z else p
    | None => 9400%Z
    end in
  let debug := default true debug in
  replace_first stop_editing
    (extraConfig port debug +:+ newline +:+ stop_editing) config.

(** [pattern] occurs in [s]. *)
Definition occurs (pattern s : string) : Prop :=
  ∃ before after, s = before +:+ pattern +:+ after.

End WpConfig.

Module Samples.

(** *** Sample data for the further properties *)

Import Checkpoint.

(** The fresh project after [checkpoint x]. *)
Definition site_x : FS :=
  (checkpointCreate site 7 noon (Some "x") None fresh_site).2.

(** A [blueprint.json] whose [preferredVersions] is empty, and one whose
    [wpsmith] is empty, with the documents Load makes of them. *)
Definition no_versions : json := JObj {[ "preferredVersions" := JObj ∅ ]}.

Definition no_versions_loaded : gmap string json :=
  <["preferredVersions" := JObj ∅]> Config.DEFAULT_BLUEPRINT.

Definition no_port : json := JObj {[ "wpsmith" := JObj ∅ ]}.

Definition no_port_loaded : gmap string json :=
  <["wpsmith" := JObj ∅]> Config.DEFAULT_BLUEPRINT.

(** [wpsmith serve --xdebug] *)
Definition serve_xdebug : Serve.options :=
  {| Serve.port := None; Serve.php := None; Serve.wp := None;
     Serve.xdebug := true |}.

(** [wpsmith new --with-gutenberg] after the prompt, with WooCommerce
    ticked. *)
Definition new_options : New.options :=
  {| New.wp := "6.7"; New.php := "8.2"; New.plugins := Some ["woocommerce"];
     New.withWoocommerce := false; New.withGutenberg := true;
     New.withQueryMonitor := false |}.

(** A generated [wp-config.php], cut short. *)
Definition generated_config : string :=
  "<?php
$table_prefix = 'wp_';
/* That's all, stop editing! Happy publishing. */
require_once ABSPATH . 'wp-settings.php';
".

End Samples.

(** * Properties *)

Import Config.

Example plugins_of_created :
  getPluginsFromBlueprint
    (<["steps" := JArr (createPluginSteps ["akismet"; "query-monitor"])]> ∅)
  = Ok [JStr "akismet"; JStr "query-monitor"].
Proof. vm_compute. reflexivity. Qed.

Example default_reload :
  loadBlueprint (Parsed (JObj DEFAULT_BLUEPRINT)) = Ok DEFAULT_BLUEPRINT.
Proof. vm_compute. reflexivity. Qed.


(** ** The configuration document *)

Section ConfigDocument.

Implicit Types (d : on_disk) (doc partial existing : gmap string json).
Implicit Types (k j : string) (v : json).

Lemma loadBlueprint_Parsed v :
  loadBlueprint (Parsed v) = Ok (props (Some v) ∪ DEFAULT_BLUEPRINT).
Proof. reflexivity. Qed.

Lemma loadBlueprint_total d : ∃ doc, loadBlueprint d = Ok doc.
Proof. destruct d; eexists; reflexivity. Qed.

Lemma lookup_spread a b k :
  spread a b !! k = match b !! k with Some x => Some x | None => a !! k end.
Proof.
  unfold spread. destruct (b !! k) as [x|] eqn:Hb.
  - by apply lookup_union_Some_l.
  - by rewrite lookup_union_r.
Qed.

(** A loaded document has the three keys of the default document. *)
Lemma loaded_has_default_keys d doc k :
  loadBlueprint d = Ok doc →
  is_Some (DEFAULT_BLUEPRINT !! k) → is_Some (doc !! k).
Proof.
  intros Hload Hk. destruct d as [| |v].
  - by injection Hload as <-.
  - by injection Hload as <-.
  - rewrite loadBlueprint_Parsed in Hload. injection Hload as <-.
    change (is_Some (spread DEFAULT_BLUEPRINT (props (Some v)) !! k)).
    rewrite lookup_spread. destruct (props (Some v) !! k); [by eexists|done].
Qed.

Lemma merge_lookup_other existing partial k :
  k ≠ "preferredVersions" → k ≠ "wpsmith" → is_Some (existing !! "$schema") →
  merge existing partial !! k =
    match partial !! k with Some x => Some x | None => existing !! k end.
Proof.
  intros Hpv Hw Hs. unfold merge. rewrite lookup_spread.
  rewrite !lookup_insert_ne by done. rewrite lookup_spread.
  destruct (partial !! k) as [x|] eqn:Hp; [done|].
  destruct (existing !! k) as [y|] eqn:He; [done|].
  rewrite lookup_insert_ne; [done|]. intros <-. rewrite He in Hs. by destruct Hs.
Qed.

Lemma merge_lookup_preferredVersions existing partial :
  merge existing partial !! "preferredVersions" =
    Some (JObj (spread (props (existing !! "preferredVersions"))
                       (props (partial !! "preferredVersions")))).
Proof. unfold merge. rewrite lookup_spread. by simplify_map_eq. Qed.

Lemma merge_lookup_wpsmith existing partial :
  merge existing partial !! "wpsmith" =
    Some (JObj (spread (props (existing !! "wpsmith"))
                       (props (partial !! "wpsmith")))).
Proof. unfold merge. rewrite lookup_spread. by simplify_map_eq. Qed.

End ConfigDocument.

Section ConfigClaims.

Implicit Types (d : on_disk) (doc partial existing : gmap string json).
Implicit Types (k j : string) (v : json).

(** C3: Save keeps every top-level field the partial document does not
    mention, lets every field the partial document sets overwrite the prior
    value, merges [preferredVersions] and [wpsmith] (and only these) key by
    key, and takes a [steps] array of the partial document as a whole; the
    document written is the one the next Load returns.  In particular, after
    Save with [{preferredVersions: {wp: "6.7"}}] the loaded document has
    [preferredVersions.wp] equal to "6.7" and [preferredVersions.php] as it
    was loaded before. *)
Theorem saveBlueprint_merges :
  (∀ d partial, ∃ existing saved,
     loadBlueprint d = Ok existing ∧
     saveBlueprint d partial = Ok (Parsed (JObj saved)) ∧
     loadBlueprint (Parsed (JObj saved)) = Ok saved ∧
     (∀ k, k ≠ "preferredVersions" → k ≠ "wpsmith" →
        partial !! k = None → saved !! k = existing !! k) ∧
     (∀ k x, k ≠ "preferredVersions" → k ≠ "wpsmith" →
        partial !! k = Some x → saved !! k = Some x) ∧
     (∀ k, k = "preferredVersions" ∨ k = "wpsmith" →
        ∃ m, saved !! k = Some (JObj m) ∧
          ∀ j, m !! j = match props (partial !! k) !! j with
                        | Some x => Some x
                        | None => props (existing !! k) !! j
                        end) ∧
     (∀ k m, k = "preferredVersions" ∨ k = "wpsmith" →
        partial !! k = None → existing !! k = Some (JObj m) →
        saved !! k = Some (JObj m)) ∧
     (∀ steps, partial !! "steps" = Some steps →
        saved !! "steps" = Some steps))
  ∧
  (∀ d, ∃ before d' after,
     loadBlueprint d = Ok before ∧
     saveBlueprint d wp_update = Ok d' ∧
     loadBlueprint d' = Ok after ∧
     props (after !! "preferredVersions") !! "php"
       = props (before !! "preferredVersions") !! "php" ∧
     props (after !! "preferredVersions") !! "wp" = Some (JStr "6.7")).
Proof.
  assert (Hsave : ∀ d partial existing, loadBlueprint d = Ok existing →
            saveBlueprint d partial = Ok (Parsed (JObj (merge existing partial)))
            ∧ loadBlueprint (Parsed (JObj (merge existing partial)))
              = Ok (merge existing partial)).
  { intros d partial existing Hload. split.
    - unfold saveBlueprint. by rewrite Hload.
    - rewrite loadBlueprint_Parsed. f_equal. simpl. apply map_eq. intros k.
      destruct (merge existing partial !! k) as [x|] eqn:Hk.
      + by apply lookup_union_Some_l.
      + rewrite lookup_union_r by done.
        destruct (DEFAULT_BLUEPRINT !! k) as [y|] eqn:Hd; [|done].
        exfalso.
        unfold DEFAULT_BLUEPRINT in Hd.
        destruct (decide (k = "preferredVersions")) as [->|Hpv].
        { by rewrite merge_lookup_preferredVersions in Hk. }
        destruct (decide (k = "wpsmith")) as [->|Hw].
        { by rewrite merge_lookup_wpsmith in Hk. }
        destruct (decide (k = "$schema")) as [->|Hs]; [|by simplify_map_eq].
        unfold merge in Hk. rewrite lookup_spread in Hk.
        destruct (_ !! "$schema") in Hk; [done|]. by simplify_map_eq. }
  split.
  - intros d partial. destruct (loadBlueprint_total d) as [existing Hload].
    destruct (Hsave d partial existing Hload) as [Hs Hl].
    assert (Hschema : is_Some (existing !! "$schema")).
    { by apply (loaded_has_default_keys d). }
    exists existing, (merge existing partial).
    split_and!; try done.
    + intros k Hpv Hw Hp. by rewrite merge_lookup_other, Hp.
    + intros k x Hpv Hw Hp. by rewrite merge_lookup_other, Hp.
    + intros k [-> | ->]; eexists;
        (split; [by rewrite ?merge_lookup_preferredVersions,
                            ?merge_lookup_wpsmith|]);
        intros j; by rewrite lookup_spread.
    + intros k m [-> | ->] Hp He;
        rewrite ?merge_lookup_preferredVersions, ?merge_lookup_wpsmith;
        rewrite Hp, He; simpl; unfold spread; by rewrite (left_id_L ∅ (∪)).
    + intros steps Hp. by rewrite merge_lookup_other, Hp.
  - intros d. destruct (loadBlueprint_total d) as [before Hload].
    destruct (Hsave d wp_update before Hload) as [Hs Hl].
    eexists before, _, _. split_and!; [done..| |].
    + rewrite merge_lookup_preferredVersions. unfold wp_update.
      rewrite lookup_singleton_eq. simpl.
      rewrite lookup_spread. by rewrite lookup_singleton_ne.
    + rewrite merge_lookup_preferredVersions. unfold wp_update.
      rewrite lookup_singleton_eq. simpl.
      rewrite lookup_spread. by rewrite lookup_singleton_eq.
Qed.

(** C4: Load of a document that is absent or that does not parse does not
    throw and returns the hardcoded default document, which carries the
    schema identifier, the default runtime versions and the default
    extension block; Load throws for no state of the file. *)
Theorem loadBlueprint_fail_open :
  loadBlueprint Absent = Ok DEFAULT_BLUEPRINT ∧
  loadBlueprint Malformed = Ok DEFAULT_BLUEPRINT ∧
  (∀ d, ∃ doc, loadBlueprint d = Ok doc) ∧
  DEFAULT_BLUEPRINT =
    {[ "$schema" := JStr "https://playground.wordpress.net/blueprint-schema.json";
       "preferredVersions" := JObj {[ "php" := JStr "8.3"; "wp" := JStr "latest" ]};
       "wpsmith" := JObj {[ "port" := JNum 9400 ]} ]}.
Proof. split_and!; try reflexivity. apply loadBlueprint_total. Qed.

(** C5, the claim as stated fails: the document on disk has a
    [preferredVersions] object without [php]; the loaded document has that
    object as it is, so its [php] is undefined and not the default "8.3". *)
Lemma loadBlueprint_no_nested_default :
  loadBlueprint (Parsed wp_only_document)
    = Ok (<["preferredVersions" := JObj {[ "wp" := JStr "6.7" ]}]>
            DEFAULT_BLUEPRINT) ∧
  (doc ← loadBlueprint (Parsed wp_only_document);
   get (doc !! "preferredVersions") "php") = Ok None ∧
  get (DEFAULT_BLUEPRINT !! "preferredVersions") "php" = Ok (Some (JStr "8.3")).
Proof. split_and!; vm_compute; reflexivity. Qed.

(** C5, amended: Load applies the hardcoded default for every top-level key
    that is absent from the document on disk, and for top-level keys only: a
    key the document has keeps the document's value as a whole, so a
    [preferredVersions] object of the document is not completed with
    defaults. *)
Theorem loadBlueprint_top_level_defaults v :
  ∃ doc, loadBlueprint (Parsed v) = Ok doc ∧
    (∀ k, props (Some v) !! k = None → doc !! k = DEFAULT_BLUEPRINT !! k) ∧
    (∀ k x, props (Some v) !! k = Some x → doc !! k = Some x).
Proof.
  eexists. split; [apply loadBlueprint_Parsed|]. split.
  - intros k Hk. by rewrite lookup_union_r.
  - intros k x Hk. by apply lookup_union_Some_l.
Qed.

End ConfigClaims.

(** ** The plugin list *)

Section PluginList.

Implicit Types (step v : json) (steps pre post : list json).
Implicit Types (blueprint rest : gmap string json).

Lemma getPlugins_passes blueprint steps :
  blueprint !! "steps" = Some (JArr steps) →
  getPluginsFromBlueprint blueprint = passes steps.
Proof. intros H. unfold getPluginsFromBlueprint. by rewrite H. Qed.

Lemma filterM_app {A} (p : A → Res bool) (l1 l2 : list A) :
  filterM p (l1 ++ l2) =
    (a ← filterM p l1; b ← filterM p l2; Ok (a ++ b)).
Proof.
  induction l1 as [|x l1 IH]; simpl.
  - by destruct (filterM p l2).
  - destruct (p x) as [keep|e]; simpl; [|done]. rewrite IH.
    destruct (filterM p l1); simpl; [|done].
    destruct (filterM p l2); simpl; [|done]. by destruct keep.
Qed.

Lemma mapM_res_app {A B} (f : A → Res B) (l1 l2 : list A) :
  mapM_res f (l1 ++ l2) =
    (a ← mapM_res f l1; b ← mapM_res f l2; Ok (a ++ b)).
Proof.
  induction l1 as [|x l1 IH]; simpl.
  - by destruct (mapM_res f l2).
  - destruct (f x) as [y|e]; simpl; [|done]. rewrite IH.
    destruct (mapM_res f l1); simpl; [|done].
    by destruct (mapM_res f l2).
Qed.

Lemma keep_truthy_app (l1 l2 : list (option json)) :
  keep_truthy (l1 ++ l2) = keep_truthy l1 ++ keep_truthy l2.
Proof. apply omap_app. Qed.

Lemma filterM_elem {A} (p : A → Res bool) (l r : list A) x :
  filterM p l = Ok r → x ∈ r → x ∈ l ∧ p x = Ok true.
Proof.
  revert r. induction l as [|y l IH]; simpl; intros r Hr Hx.
  - injection Hr as <-. by apply elem_of_nil in Hx.
  - destruct (p y) as [keep|] eqn:Hy; simpl in Hr; [|done].
    destruct (filterM p l) as [r'|]; simpl in Hr; [|done].
    injection Hr as <-. destruct keep.
    + apply elem_of_cons in Hx as [->|Hx].
      * split; [left|done].
      * destruct (IH r' eq_refl Hx). split; [by right|done].
    + destruct (IH r' eq_refl Hx). split; [by right|done].
Qed.

Lemma mapM_res_elem {A B} (f : A → Res B) (l : list A) (r : list B) y :
  mapM_res f l = Ok r → y ∈ r → ∃ x, x ∈ l ∧ f x = Ok y.
Proof.
  revert r. induction l as [|x l IH]; simpl; intros r Hr Hy.
  - injection Hr as <-. by apply elem_of_nil in Hy.
  - destruct (f x) as [z|] eqn:Hz; simpl in Hr; [|done].
    destruct (mapM_res f l) as [r'|]; simpl in Hr; [|done].
    injection Hr as <-. apply elem_of_cons in Hy as [->|Hy].
    + exists x. split; [left|done].
    + destruct (IH r' eq_refl Hy) as (x' & ? & ?). exists x'.
      split; [by right|done].
Qed.

Lemma keep_truthy_elem (slugs : list (option json)) v :
  v ∈ keep_truthy slugs → Some v ∈ slugs ∧ truthy (Some v) = true.
Proof.
  unfold keep_truthy. rewrite list_elem_of_omap.
  intros (slug & Hin & Hslug). destruct (truthy slug) eqn:Ht; [|done].
  by subst.
Qed.

Lemma passes_cons_Ok step steps r1 r2 :
  passes [step] = Ok r1 → passes steps = Ok r2 →
  passes (step :: steps) = Ok (r1 ++ r2).
Proof.
  unfold passes. simpl.
  destruct (is_install_plugin step) as [keep|]; simpl; [|done].
  destruct (filterM is_install_plugin steps) as [picked|]; simpl; [|done].
  destruct keep; simpl.
  - destruct (slug_of step) as [slug|]; simpl; [|done].
    destruct (mapM_res slug_of picked) as [slugs|]; simpl; [|done].
    intros [= <-] [= <-]. f_equal. apply (keep_truthy_app [slug] slugs).
  - destruct (mapM_res slug_of picked) as [slugs|]; simpl; [|done].
    by intros [= <-] [= <-].
Qed.

Lemma passes_typed_step step :
  typed_step step = true →
  passes [step] = Ok (JStr <$> derive_plugin_list [step]).
Proof.
  unfold passes, derive_plugin_list. simpl.
  destruct step as [| | | |?|m]; try done. simpl.
  unfold is_install_plugin, slug_of. simpl.
  destruct (m !! "step") as [[| | |t| |]|] eqn:Ht; try done. simpl.
  destruct (String.eqb t "installPlugin") eqn:Htag; simpl; [|done].
  destruct (m !! "pluginData") as [pd|] eqn:Hpd; simpl.
  - rewrite Hpd.
    destruct pd as [| | | |?|pd]; try done. simpl.
    destruct (pd !! "slug") as [[| | |s| |]|] eqn:Hs; try done.
    unfold keep_truthy. simpl. by destruct (String.eqb s "").
  - done.
Qed.

(** On a document typed by the [Blueprint] interface the three passes
    return, and compute the list of the specification. *)
Lemma passes_typed steps :
  forallb typed_step steps = true →
  passes steps = Ok (JStr <$> derive_plugin_list steps).
Proof.
  induction steps as [|step steps IH]; [done|]. simpl.
  intros [Hstep Hsteps]%andb_prop.
  rewrite (passes_cons_Ok step steps _ _ (passes_typed_step step Hstep)
             (IH Hsteps)).
  f_equal. unfold derive_plugin_list. simpl.
  by destruct (plugin_identifier step).
Qed.

Lemma is_install_plugin_tagged (m : gmap string json) :
  m !! "step" = Some (JStr "installPlugin") →
  is_install_plugin (JObj m) = Ok (bool_decide (is_Some (m !! "pluginData"))).
Proof. intros Htag. unfold is_install_plugin. simpl. by rewrite Htag. Qed.

Lemma slug_of_object (m pd : gmap string json) :
  m !! "pluginData" = Some (JObj pd) →
  slug_of (JObj m) = Ok (pd !! "slug").
Proof. intros Hpd. unfold slug_of. simpl. by rewrite Hpd. Qed.

Lemma passes_omit pre step post :
  lacks_slug step → passes (pre ++ step :: post) = passes (pre ++ post).
Proof.
  intros (m & -> & Htag & Hdata). unfold passes.
  rewrite !filterM_app. simpl.
  destruct (filterM is_install_plugin pre) as [a|]; simpl; [|done].
  rewrite (is_install_plugin_tagged m Htag). simpl.
  destruct Hdata as [Hnone | (pd & Hpd & Hslug)].
  - rewrite bool_decide_eq_false_2 by (rewrite Hnone; by intros []). simpl.
    by destruct (filterM is_install_plugin post).
  - rewrite bool_decide_eq_true_2 by (by rewrite Hpd). simpl.
    destruct (filterM is_install_plugin post) as [b|]; simpl; [|done].
    rewrite !mapM_res_app. simpl.
    destruct (mapM_res slug_of a) as [sa|]; simpl; [|done].
    rewrite (slug_of_object m pd Hpd). simpl.
    destruct (mapM_res slug_of b) as [sb|]; simpl; [|done].
    f_equal. rewrite !keep_truthy_app. f_equal.
    unfold keep_truthy. simpl. by destruct Hslug as [-> | ->].
Qed.

Lemma derive_plugin_list_none steps :
  forallb (λ step, negb (is_variant "installPlugin" step)) steps = true →
  derive_plugin_list steps = [].
Proof.
  induction steps as [|step steps IH]; [done|]. simpl.
  intros [Hstep Hrest]%andb_prop.
  unfold derive_plugin_list in *. simpl. rewrite (IH Hrest).
  destruct step as [| | | |?|m]; try done. simpl in *.
  by destruct (is_tag "installPlugin" (m !! "step")).
Qed.

Lemma plugin_identifier_created slug :
  slug ≠ "" → plugin_identifier (install_plugin_step slug) = Some slug.
Proof.
  intros Hne%String.eqb_neq. unfold plugin_identifier, install_plugin_step.
  cbv beta iota. rewrite lookup_insert_eq. simpl is_tag. cbv beta iota.
  rewrite (lookup_insert_ne _ "step" "pluginData") by done.
  rewrite lookup_singleton_eq.
  rewrite (lookup_insert_ne _ "resource" "slug") by done.
  rewrite lookup_singleton_eq. by rewrite Hne.
Qed.

Lemma plugin_identifier_set_options options :
  plugin_identifier (set_options_step options) = None.
Proof.
  unfold plugin_identifier, set_options_step. cbv beta iota.
  by rewrite lookup_insert_eq.
Qed.

Lemma derive_plugin_list_cons step steps :
  derive_plugin_list (step :: steps) =
    match plugin_identifier step with
    | Some slug => slug :: derive_plugin_list steps
    | None => derive_plugin_list steps
    end.
Proof. reflexivity. Qed.

Lemma createPluginSteps_cons slug plugins :
  createPluginSteps (slug :: plugins)
    = install_plugin_step slug :: createPluginSteps plugins.
Proof. reflexivity. Qed.

Lemma plugin_identifier_nonempty step slug :
  plugin_identifier step = Some slug → slug ≠ "".
Proof.
  destruct step as [| | | |?|m]; try done. simpl.
  destruct (is_tag _ _); [|done].
  destruct (m !! "pluginData") as [[| | | |?|pd]|]; try done.
  destruct (pd !! "slug") as [[| | |s| |]|]; try done.
  destruct (String.eqb s "") eqn:Hs; [done|].
  intros [= <-]. by apply String.eqb_neq.
Qed.

Lemma derive_plugin_list_nonempty steps :
  Forall (λ slug, slug ≠ "") (derive_plugin_list steps).
Proof.
  apply Forall_forall. intros slug. unfold derive_plugin_list.
  rewrite list_elem_of_omap. intros (step & _ & Hstep).
  by apply (plugin_identifier_nonempty step).
Qed.

Lemma plugin_identifier_lacks_slug step :
  lacks_slug step → plugin_identifier step = None.
Proof.
  intros (m & -> & Htag & Hdata). simpl. rewrite Htag. simpl.
  destruct Hdata as [-> | (pd & -> & [-> | ->])]; done.
Qed.

End PluginList.

Section PluginClaims.

Implicit Types (step v : json) (steps pre post : list json).
Implicit Types (blueprint rest : gmap string json).

(** C9: Derive-plugin-list keeps the install-plugin steps and projects out
    their plugin identifier, in the order of the steps: on a typed document
    the code returns the list of the specification; it returns the empty
    list when the document has no steps and when no step is an
    install-plugin step; on
    [install-plugin(a), set-options(...), install-plugin(b)] it returns
    [a, b]; and it gives back, in order, the slugs that [createPluginSteps]
    was given. *)
Theorem plugin_list_in_order :
  (∀ blueprint steps,
     blueprint !! "steps" = Some (JArr steps) →
     forallb typed_step steps = true →
     getPluginsFromBlueprint blueprint
       = Ok (JStr <$> derive_plugin_list steps)) ∧
  (∀ blueprint,
     blueprint !! "steps" = None →
     getPluginsFromBlueprint blueprint = Ok []) ∧
  (∀ blueprint steps,
     blueprint !! "steps" = Some (JArr steps) →
     forallb typed_step steps = true →
     forallb (λ step, negb (is_variant "installPlugin" step)) steps = true →
     getPluginsFromBlueprint blueprint = Ok []) ∧
  (∀ rest a b options,
     a ≠ "" → b ≠ "" →
     getPluginsFromBlueprint
       (<["steps" := JArr [install_plugin_step a; set_options_step options;
                           install_plugin_step b]]> rest)
       = Ok [JStr a; JStr b]) ∧
  (∀ rest plugins,
     Forall (λ slug, slug ≠ "") plugins →
     getPluginsFromBlueprint
       (<["steps" := JArr (createPluginSteps plugins)]> rest)
       = Ok (JStr <$> plugins)).
Proof.
  split_and!.
  - intros blueprint steps Hsteps Htyped.
    rewrite (getPlugins_passes _ _ Hsteps). by apply passes_typed.
  - intros blueprint Hnone. unfold getPluginsFromBlueprint. by rewrite Hnone.
  - intros blueprint steps Hsteps Htyped Hnone.
    rewrite (getPlugins_passes _ _ Hsteps), passes_typed by done.
    by rewrite derive_plugin_list_none.
  - intros rest a b options Ha Hb.
    rewrite (getPlugins_passes _ [install_plugin_step a;
      set_options_step options; install_plugin_step b])
      by apply lookup_insert_eq.
    rewrite passes_typed by done.
    rewrite !derive_plugin_list_cons, plugin_identifier_set_options.
    by rewrite !plugin_identifier_created.
  - intros rest plugins Hne.
    rewrite (getPlugins_passes _ (createPluginSteps plugins))
      by apply lookup_insert_eq.
    induction Hne as [|slug plugins Hslug Hne IH]; [done|].
    rewrite createPluginSteps_cons.
    rewrite (passes_cons_Ok _ _ [JStr slug] (JStr <$> plugins));
      [done| |done].
    rewrite passes_typed_step by done.
    by rewrite derive_plugin_list_cons, plugin_identifier_created.
Qed.

(** C10: an install-plugin step that has no [pluginData], or whose
    [pluginData] has no slug or the empty one, leaves no trace in the result:
    the result is the one of the document without that step.  Whatever the
    result holds is the defined, truthy slug of an install-plugin step of
    the document that has a [pluginData]; on a typed document these are
    non-empty strings, and a step without a slug has no plugin identifier. *)
Theorem plugins_without_slug_omitted :
  (∀ rest pre step post,
     lacks_slug step →
     getPluginsFromBlueprint (<["steps" := JArr (pre ++ step :: post)]> rest)
       = getPluginsFromBlueprint (<["steps" := JArr (pre ++ post)]> rest)) ∧
  (∀ blueprint result v,
     getPluginsFromBlueprint blueprint = Ok result → v ∈ result →
     truthy (Some v) = true ∧
     ∃ steps step,
       blueprint !! "steps" = Some (JArr steps) ∧ step ∈ steps ∧
       is_install_plugin step = Ok true ∧ slug_of step = Ok (Some v)) ∧
  (∀ blueprint steps,
     blueprint !! "steps" = Some (JArr steps) →
     forallb typed_step steps = true →
     getPluginsFromBlueprint blueprint
       = Ok (JStr <$> derive_plugin_list steps) ∧
     Forall (λ slug, slug ≠ "") (derive_plugin_list steps) ∧
     ∀ step, step ∈ steps → lacks_slug step → plugin_identifier step = None).
Proof.
  split_and!.
  - intros rest pre step post Hstep.
    rewrite (getPlugins_passes _ (pre ++ step :: post))
      by apply lookup_insert_eq.
    rewrite (getPlugins_passes _ (pre ++ post)) by apply lookup_insert_eq.
    by apply passes_omit.
  - intros blueprint result v. unfold getPluginsFromBlueprint.
    destruct (truthy (blueprint !! "steps")); simpl.
    2:{ intros [= <-] Hv. by apply elem_of_nil in Hv. }
    destruct (blueprint !! "steps") as [[| | | |steps|]|]; try done. simpl.
    unfold passes.
    destruct (filterM is_install_plugin steps) as [picked|] eqn:Hf;
      simpl; [|done].
    destruct (mapM_res slug_of picked) as [slugs|] eqn:Hm; simpl; [|done].
    intros [= <-] Hv. apply keep_truthy_elem in Hv as [Hv Ht].
    split; [done|].
    destruct (mapM_res_elem _ _ _ _ Hm Hv) as (step & Hstep & Hslug).
    destruct (filterM_elem _ _ _ _ Hf Hstep) as [Hin Hkeep].
    by exists steps, step.
  - intros blueprint steps Hsteps Htyped. split_and!.
    + rewrite (getPlugins_passes _ _ Hsteps). by apply passes_typed.
    + apply derive_plugin_list_nonempty.
    + intros step _. apply plugin_identifier_lacks_slug.
Qed.

End PluginClaims.

(** ** Paths *)

Import Checkpoint.

Section Paths.

Implicit Types (projectPath f n suffix : string).

Lemma string_app_cons c (s1 s2 : string) :
  String c s1 +:+ s2 = String c (s1 +:+ s2).
Proof. reflexivity. Qed.

Lemma string_app_assoc (s1 s2 s3 : string) :
  (s1 +:+ s2) +:+ s3 = s1 +:+ (s2 +:+ s3).
Proof.
  induction s1 as [|c s1 IH]; [done|]. by rewrite !string_app_cons, IH.
Qed.

Lemma checkpoint_path_eq projectPath f :
  path_join (getCheckpointsPath projectPath) f
    = projectPath +:+ "/wp-content/database/checkpoints/" +:+ f.
Proof.
  unfold path_join, getCheckpointsPath, path_join.
  by rewrite !string_app_assoc.
Qed.

Lemma live_path_eq projectPath suffix :
  getDatabasePath projectPath +:+ suffix
    = projectPath +:+ "/wp-content/database/.ht.sqlite" +:+ suffix.
Proof.
  unfold getDatabasePath, path_join. by rewrite !string_app_assoc.
Qed.

Lemma string_app_empty_r (s : string) : s +:+ "" = s.
Proof. induction s as [|c s IH]; [done|]. by rewrite string_app_cons, IH. Qed.

(** No file of the checkpoint directory is a live file. *)
Lemma checkpoint_path_not_live projectPath f :
  path_join (getCheckpointsPath projectPath) f ∉ livePaths projectPath.
Proof.
  unfold livePaths. rewrite <-(string_app_empty_r (getDatabasePath _)) at 1.
  rewrite !elem_of_cons, elem_of_nil, checkpoint_path_eq, !live_path_eq.
  intros [H|[H|[H|[H|[]]]]]; apply (inj (String.app projectPath)) in H;
    discriminate H.
Qed.

Lemma path_join_inj a f1 f2 : path_join a f1 = path_join a f2 → f1 = f2.
Proof.
  unfold path_join. intros H.
  apply (inj (String.app a)) in H. by apply (inj (String.app "/")) in H.
Qed.

Lemma sqlite_not_meta n : n +:+ ".sqlite" ≠ "meta.json".
Proof.
  intros H.
  repeat (destruct n as [|? n]; [discriminate H|];
          rewrite string_app_cons in H; injection H as _ H).
  destruct n; discriminate H.
Qed.

Lemma snapshot_path_not_meta projectPath n :
  snapshotPath projectPath n ≠ metaPathOf (getCheckpointsPath projectPath).
Proof.
  unfold snapshotPath, metaPathOf. intros H%path_join_inj.
  by apply sqlite_not_meta in H.
Qed.

Lemma snapshot_path_not_live projectPath n :
  snapshotPath projectPath n ∉ livePaths projectPath.
Proof. apply checkpoint_path_not_live. Qed.

Lemma meta_path_not_live projectPath :
  metaPathOf (getCheckpointsPath projectPath) ∉ livePaths projectPath.
Proof. apply checkpoint_path_not_live. Qed.

Lemma db_path_live projectPath :
  getDatabasePath projectPath ∈ livePaths projectPath.
Proof. left. Qed.

Lemma string_length_app (s t : string) :
  String.length (s +:+ t) = String.length s + String.length t.
Proof.
  induction s as [|a s IH]; [done|]. rewrite string_app_cons. simpl.
  by rewrite IH.
Qed.

Lemma has_slash_app (s t : string) :
  has_slash (s +:+ t) = has_slash s || has_slash t.
Proof.
  induction s as [|a s IH]; [done|]. rewrite string_app_cons. simpl.
  by rewrite IH, orb_assoc.
Qed.

(** The file derived from a name without a separator is a plain name. *)
Lemma derived_plain n : has_slash n = false → plain (n +:+ ".sqlite").
Proof.
  intros Hn. split_and!.
  - intros H%(f_equal String.length). rewrite string_length_app in H.
    simpl in H. lia.
  - intros H%(f_equal String.length). rewrite string_length_app in H.
    simpl in H. lia.
  - intros H%(f_equal String.length). rewrite string_length_app in H.
    simpl in H. lia.
  - by rewrite has_slash_app, Hn.
Qed.

Lemma has_slash_pretty_N_go (x : N) s :
  has_slash s = false → has_slash (pretty_N_go x s) = false.
Proof.
  revert s. induction (N.lt_wf_0 x) as [x _ IH]; intros s Hs.
  assert (x = 0 ∨ 0 < x)%N as [->|?] by lia.
  - by rewrite pretty_N_go_0.
  - rewrite pretty_N_go_step by done. apply IH; [by apply N.div_lt|].
    simpl. rewrite Hs. unfold pretty_N_char. by repeat case_match.
Qed.

(** A name made from the timestamp has no separator. *)
Lemma checkpointNameOf_plain (timestamp : N) (name : option string) :
  plain_name name → has_slash (checkpointNameOf timestamp name) = false.
Proof.
  intros Hname. unfold checkpointNameOf, given.
  destruct name as [n|]; [destruct (String.eqb n "")|]; simpl;
    try (by apply Hname).
  - rewrite has_slash_app. unfold pretty, pretty_N.
    case_decide; [done|]. by rewrite has_slash_pretty_N_go.
  - rewrite has_slash_app. unfold pretty, pretty_N.
    case_decide; [done|]. by rewrite has_slash_pretty_N_go.
Qed.

End Paths.

(** ** The checkpoint store *)

Section Store.

Variable projectPath : string.

Abbreviation dbPath := (getDatabasePath projectPath).
Abbreviation checkpointDir := (getCheckpointsPath projectPath).
Abbreviation metaPath := (metaPathOf checkpointDir).

Implicit Types (fs : FS) (c : content) (cp : Entry) (entries : list Entry).
Implicit Types (name description : option string) (n iso : string).
Implicit Types (timestamp : N).

Lemma pathExists_Some p fs c : fs !! p = Some c → pathExists p fs = true.
Proof. intros H. unfold pathExists. by rewrite H, bool_decide_eq_true_2. Qed.

Lemma pathExists_false p fs : pathExists p fs = false ↔ fs !! p = None.
Proof.
  unfold pathExists. rewrite bool_decide_eq_false, <-eq_None_not_Some. done.
Qed.

Lemma pathExists_true p fs : pathExists p fs = true ↔ is_Some (fs !! p).
Proof. unfold pathExists. by rewrite bool_decide_eq_true. Qed.

Lemma index_same_snapshots fs1 fs2 :
  same_snapshots projectPath fs1 fs2 →
  index projectPath fs2 = index projectPath fs1.
Proof.
  intros Hsame. unfold index, read_meta, readJSON.
  by rewrite (Hsame _ (meta_path_not_live projectPath)).
Qed.

Lemma index_write entries fs :
  index projectPath (writeJSON metaPath {| checkpoints := entries |} fs)
    = entries.
Proof.
  unfold index, read_meta, readJSON, writeJSON. by rewrite lookup_insert_eq.
Qed.

Lemma index_insert_snapshot n c fs :
  index projectPath (<[snapshotPath projectPath n := c]> fs)
    = index projectPath fs.
Proof.
  unfold index, read_meta, readJSON.
  by rewrite lookup_insert_ne by apply snapshot_path_not_meta.
Qed.

(** With a readable [meta.json] the commands work on the index. *)
Lemma checkpoints_readable fs :
  readable_index projectPath fs →
  checkpoints_of (read_meta metaPath fs) = Ok (index projectPath fs).
Proof.
  unfold readable_index, index, read_meta, readJSON. intros Hr.
  by destruct (fs !! metaPath) as [[| |]|].
Qed.

Lemma checkpoints_no_index fs :
  fs !! metaPath = Some NoIndex →
  checkpoints_of (read_meta metaPath fs) = Throw TypeError.
Proof. intros H. unfold read_meta, readJSON. by rewrite H. Qed.

Lemma index_no_index fs :
  fs !! metaPath = Some NoIndex → index projectPath fs = [].
Proof. intros H. unfold index, read_meta, readJSON. by rewrite H. Qed.

Lemma index_readable fs :
  index projectPath fs ≠ [] → readable_index projectPath fs.
Proof. intros Hne Hno. by apply Hne, index_no_index. Qed.

Lemma readable_or_not fs :
  readable_index projectPath fs ∨ fs !! metaPath = Some NoIndex.
Proof.
  unfold readable_index. destruct (fs !! metaPath) as [[| |]|]; auto.
Qed.

Lemma readable_same_snapshots fs1 fs2 :
  same_snapshots projectPath fs1 fs2 →
  readable_index projectPath fs1 → readable_index projectPath fs2.
Proof.
  intros Hsame. unfold readable_index.
  by rewrite (Hsame _ (meta_path_not_live projectPath)).
Qed.

Lemma readable_write entries fs :
  readable_index projectPath
    (writeJSON metaPath {| checkpoints := entries |} fs).
Proof. unfold readable_index, writeJSON. by rewrite lookup_insert_eq. Qed.

Lemma select_nil name : select name [] = None.
Proof. unfold select. by destruct (given name). Qed.

Lemma select_Some_readable name fs cp :
  select name (index projectPath fs) = Some cp →
  readable_index projectPath fs ∧ index projectPath fs ≠ [].
Proof.
  intros Hsel.
  assert (index projectPath fs ≠ []) as Hne.
  { intros Hnil. by rewrite Hnil, select_nil in Hsel. }
  split; [by apply index_readable|done].
Qed.

(** What a successful Create does. *)
Lemma create_Success timestamp iso name description fs c :
  fs !! dbPath = Some c →
  fs !! snapshotPath projectPath (checkpointNameOf timestamp name) = None →
  readable_index projectPath fs →
  checkpointCreate projectPath timestamp iso name description fs =
    (Success,
     writeJSON metaPath
       {| checkpoints :=
            index projectPath fs ++
            [ {| Checkpoint.name := checkpointNameOf timestamp name;
                 created := iso;
                 file := checkpointNameOf timestamp name +:+ ".sqlite";
                 description := description |} ] |}
       (<[snapshotPath projectPath (checkpointNameOf timestamp name) := c]>
          fs)).
Proof.
  intros Hdb Hfree Hr. unfold checkpointCreate.
  rewrite (pathExists_Some _ _ _ Hdb). simpl.
  fold (snapshotPath projectPath (checkpointNameOf timestamp name)).
  rewrite (proj2 (pathExists_false _ _) Hfree).
  unfold copy. rewrite Hdb.
  rewrite checkpoints_readable.
  - by rewrite index_insert_snapshot.
  - unfold readable_index.
    by rewrite lookup_insert_ne by apply snapshot_path_not_meta.
Qed.

(** Create looks at the file system, not at the index, for a name that is
    taken. *)
Lemma create_DuplicateName timestamp iso name description fs :
  is_Some (fs !! dbPath) →
  is_Some (fs !! snapshotPath projectPath (checkpointNameOf timestamp name)) →
  checkpointCreate projectPath timestamp iso name description fs
    = (Failure DuplicateName, fs).
Proof.
  intros [c Hdb] Htaken. unfold checkpointCreate.
  rewrite (pathExists_Some _ _ _ Hdb). simpl.
  fold (snapshotPath projectPath (checkpointNameOf timestamp name)).
  by rewrite (proj2 (pathExists_true _ _) Htaken).
Qed.

Lemma create_NoLiveData timestamp iso name description fs :
  fs !! dbPath = None →
  checkpointCreate projectPath timestamp iso name description fs
    = (Failure NoLiveData, fs).
Proof.
  intros Hdb. unfold checkpointCreate.
  by rewrite (proj2 (pathExists_false _ _) Hdb).
Qed.

(** On a [meta.json] without an index the copy is made, [push] throws in
    the [try] and the command leaves with the snapshot file in place. *)
Lemma create_NoIndex timestamp iso name description fs c :
  fs !! dbPath = Some c →
  fs !! snapshotPath projectPath (checkpointNameOf timestamp name) = None →
  fs !! metaPath = Some NoIndex →
  checkpointCreate projectPath timestamp iso name description fs =
    (Failure IOFailure,
     <[snapshotPath projectPath (checkpointNameOf timestamp name) := c]> fs).
Proof.
  intros Hdb Hfree Hno. unfold checkpointCreate.
  rewrite (pathExists_Some _ _ _ Hdb). simpl.
  fold (snapshotPath projectPath (checkpointNameOf timestamp name)).
  rewrite (proj2 (pathExists_false _ _) Hfree).
  unfold copy. rewrite Hdb.
  rewrite checkpoints_no_index; [done|].
  by rewrite lookup_insert_ne by apply snapshot_path_not_meta.
Qed.

Lemma create_Success_inv timestamp iso name description fs fs1 :
  checkpointCreate projectPath timestamp iso name description fs
    = (Success, fs1) →
  let n := checkpointNameOf timestamp name in
  ∃ c, fs !! dbPath = Some c ∧
    fs !! snapshotPath projectPath n = None ∧
    readable_index projectPath fs ∧
    fs1 = writeJSON metaPath
            {| checkpoints := index projectPath fs ++
                 [{| Checkpoint.name := n; created := iso;
                     file := n +:+ ".sqlite"; description := description |}] |}
            (<[snapshotPath projectPath n := c]> fs).
Proof.
  intros Hcreate n. subst n.
  destruct (fs !! dbPath) as [c|] eqn:Hdb.
  - destruct (fs !! snapshotPath projectPath (checkpointNameOf timestamp name))
      as [c'|] eqn:Hsnap.
    + by rewrite create_DuplicateName in Hcreate by (by rewrite ?Hdb, ?Hsnap).
    + destruct (readable_or_not fs) as [Hr|Hno].
      * rewrite (create_Success _ _ _ _ _ c Hdb Hsnap Hr) in Hcreate.
        injection Hcreate as <-. by exists c.
      * by rewrite (create_NoIndex _ _ _ _ _ c Hdb Hsnap Hno) in Hcreate.
  - by rewrite create_NoLiveData in Hcreate by done.
Qed.

(** A Create that fails leaves the index as it was. *)
Lemma create_Failure_index timestamp iso name description fs why fs1 :
  checkpointCreate projectPath timestamp iso name description fs
    = (Failure why, fs1) →
  index projectPath fs1 = index projectPath fs ∧
  (why ≠ IOFailure → fs1 = fs) ∧
  (why = IOFailure → index projectPath fs = []).
Proof.
  destruct (fs !! dbPath) as [c|] eqn:Hdb.
  - destruct (fs !! snapshotPath projectPath (checkpointNameOf timestamp name))
      as [c'|] eqn:Hsnap.
    + rewrite create_DuplicateName by (by rewrite ?Hdb, ?Hsnap).
      intros [= <- <-]. by split_and!.
    + destruct (readable_or_not fs) as [Hr|Hno].
      * by rewrite (create_Success _ _ _ _ _ c Hdb Hsnap Hr).
      * rewrite (create_NoIndex _ _ _ _ _ c Hdb Hsnap Hno).
        intros [= <- <-]. split_and!; [apply index_insert_snapshot|done|].
        intros _. by apply index_no_index.
  - rewrite create_NoLiveData by done. intros [= <- <-]. by split_and!.
Qed.

(** What a successful Restore does. *)
Lemma restore_Success name fs cp c :
  select name (index projectPath fs) = Some cp →
  fs !! path_join checkpointDir (file cp) = Some c →
  ∃ fs', checkpointRestore projectPath name fs = (Success, fs') ∧
    fs' !! dbPath = Some c ∧ same_snapshots projectPath fs fs'.
Proof.
  intros Hsel Hfile. unfold checkpointRestore.
  destruct (select_Some_readable _ _ _ Hsel) as [Hr Hne].
  rewrite (checkpoints_readable fs Hr).
  rewrite bool_decide_eq_false_2 by (by intros ?%nil_length_inv).
  rewrite Hsel, (pathExists_Some _ _ _ Hfile). simpl.
  pose proof (checkpoint_path_not_live projectPath (file cp)) as Hlive.
  unfold livePaths in Hlive. rewrite !not_elem_of_cons in Hlive.
  destruct Hlive as (H1 & H2 & H3 & H4 & _).
  unfold copy, remove. rewrite !lookup_delete_ne, Hfile by done.
  eexists. split; [done|]. split; [by rewrite lookup_insert_eq|].
  intros p Hp. unfold livePaths in Hp. rewrite !not_elem_of_cons in Hp.
  destruct Hp as (P1 & P2 & P3 & P4 & _).
  by rewrite lookup_insert_ne, !lookup_delete_ne.
Qed.

Lemma select_latest entries : select None entries = last entries.
Proof.
  unfold select. simpl. rewrite last_lookup. f_equal. lia.
Qed.

Lemma select_named n entries :
  n ≠ "" → select (Some n) entries = snd <$> list_find (named n) entries.
Proof.
  intros Hn%String.eqb_neq. unfold select. simpl. by rewrite Hn.
Qed.

Lemma select_named_None n entries :
  n ≠ "" → Forall (λ cp, Checkpoint.name cp ≠ n) entries →
  select (Some n) entries = None.
Proof.
  intros Hn Hall. rewrite select_named by done.
  destruct (list_find _ _) as [[i cp]|] eqn:Hfind; [|done].
  apply list_find_Some in Hfind as (Hi & Hcp & _).
  rewrite Forall_forall in Hall.
  destruct (Hall cp); [|done]. apply list_elem_of_lookup. by exists i.
Qed.

Lemma select_named_Some n entries cp :
  n ≠ "" → select (Some n) entries = Some cp →
  cp ∈ entries ∧ Checkpoint.name cp = n.
Proof.
  intros Hn. rewrite select_named by done.
  destruct (list_find _ _) as [[i cp']|] eqn:Hfind; [|done].
  intros [= <-]. apply list_find_Some in Hfind as (Hi & Hcp & _).
  split; [|done]. apply list_elem_of_lookup. by exists i.
Qed.

Lemma select_named_is_Some n entries cp :
  n ≠ "" → cp ∈ entries → Checkpoint.name cp = n →
  is_Some (select (Some n) entries).
Proof.
  intros Hn Hin Hcp. rewrite select_named by done.
  destruct (list_find_elem_of (named n) entries cp Hin Hcp) as [[i cp'] ->].
  by eexists.
Qed.

Lemma select_elem_of name entries cp :
  select name entries = Some cp → cp ∈ entries.
Proof.
  unfold select. destruct (given name) as [n|].
  - destruct (list_find _ _) as [[i cp']|] eqn:Hfind; [|done].
    intros [= <-]. apply list_find_Some in Hfind as (Hi & _).
    apply list_elem_of_lookup. by exists i.
  - intros H. apply list_elem_of_lookup. by eexists.
Qed.

Lemma filter_named_none n entries :
  Forall (λ cp, Checkpoint.name cp ≠ n) entries →
  filter (named n) entries = [].
Proof.
  induction 1 as [|cp entries Hcp _ IH]; [done|].
  by rewrite filter_cons_False.
Qed.

Lemma restore_NotFound name fs :
  readable_index projectPath fs →
  select name (index projectPath fs) = None →
  checkpointRestore projectPath name fs = (Failure NotFound, fs).
Proof.
  intros Hr Hsel. unfold checkpointRestore.
  rewrite (checkpoints_readable fs Hr), Hsel. by case_bool_decide.
Qed.

Lemma restore_MissingFile name fs cp :
  select name (index projectPath fs) = Some cp →
  fs !! path_join checkpointDir (file cp) = None →
  checkpointRestore projectPath name fs = (Failure MissingFile, fs).
Proof.
  intros Hsel Hfile. unfold checkpointRestore.
  destruct (select_Some_readable _ _ _ Hsel) as [Hr Hne].
  rewrite (checkpoints_readable fs Hr).
  rewrite bool_decide_eq_false_2 by (by intros ?%nil_length_inv).
  by rewrite Hsel, (proj2 (pathExists_false _ _) Hfile).
Qed.

(** On a [meta.json] without an index [meta.checkpoints.length] throws
    outside every [try]. *)
Lemma restore_Uncaught name fs :
  fs !! metaPath = Some NoIndex →
  checkpointRestore projectPath name fs = (Failure Uncaught, fs).
Proof.
  intros Hno. unfold checkpointRestore. by rewrite checkpoints_no_index.
Qed.

Lemma delete_Success n fs i cp :
  list_find (named n) (index projectPath fs) = Some (i, cp) →
  checkpointDelete projectPath n fs =
    (Success,
     writeJSON metaPath
       {| checkpoints := delete i (index projectPath fs) |}
       (remove (path_join checkpointDir (file cp)) fs)).
Proof.
  intros Hfind. unfold checkpointDelete.
  rewrite checkpoints_readable; [by rewrite Hfind|].
  apply index_readable. intros Hnil. by rewrite Hnil in Hfind.
Qed.

Lemma delete_NotFound n fs :
  readable_index projectPath fs →
  list_find (named n) (index projectPath fs) = None →
  checkpointDelete projectPath n fs = (Failure NotFound, fs).
Proof.
  intros Hr Hfind. unfold checkpointDelete.
  by rewrite (checkpoints_readable fs Hr), Hfind.
Qed.

Lemma delete_Uncaught n fs :
  fs !! metaPath = Some NoIndex →
  checkpointDelete projectPath n fs = (Failure Uncaught, fs).
Proof.
  intros Hno. unfold checkpointDelete. by rewrite checkpoints_no_index.
Qed.

Lemma clear_Uncaught confirmed fs :
  fs !! metaPath = Some NoIndex →
  checkpointClear projectPath confirmed fs = (Failure Uncaught, fs).
Proof.
  intros Hno. unfold checkpointClear. by rewrite checkpoints_no_index.
Qed.

(** The operations keep the files of the index derived from the names. *)
Lemma create_derived_files timestamp iso name description fs :
  derived_files (index projectPath fs) →
  derived_files
    (index projectPath
       (checkpointCreate projectPath timestamp iso name description fs).2).
Proof.
  intros Hwf.
  destruct (checkpointCreate projectPath timestamp iso name description fs)
    as [[|why] fs1] eqn:Hcreate; simpl.
  - destruct (create_Success_inv _ _ _ _ _ _ Hcreate) as (c & _ & _ & _ & ->).
    rewrite index_write. apply Forall_app. split; [done|].
    by repeat constructor.
  - destruct (create_Failure_index _ _ _ _ _ _ _ Hcreate) as (-> & _). done.
Qed.

Lemma delete_derived_files n fs :
  derived_files (index projectPath fs) →
  derived_files (index projectPath (checkpointDelete projectPath n fs).2).
Proof.
  intros Hwf.
  destruct (list_find (named n) (index projectPath fs)) as [[i cp]|]
    eqn:Hfind.
  - rewrite (delete_Success _ _ _ _ Hfind). simpl.
    rewrite index_write. unfold derived_files in *.
    rewrite Forall_forall in *. intros x Hx. apply Hwf.
    by apply (list_elem_of_delete_inv x i).
  - destruct (readable_or_not fs) as [Hr|Hno].
    + by rewrite (delete_NotFound _ _ Hr Hfind).
    + by rewrite (delete_Uncaught _ _ Hno).
Qed.

Lemma restore_same_snapshots name fs :
  same_snapshots projectPath fs (checkpointRestore projectPath name fs).2.
Proof.
  unfold checkpointRestore.
  destruct (checkpoints_of _) as [entries|]; [|done].
  case_bool_decide; [done|].
  destruct (select _ _) as [cp|]; [|done].
  destruct (pathExists _ fs); simpl; [|done].
  assert (same_snapshots projectPath fs
            (remove (dbPath +:+ "-shm") (remove (dbPath +:+ "-wal")
               (remove (dbPath +:+ "-journal") (remove dbPath fs)))))
    as Hremoved.
  { intros p Hp. unfold livePaths in Hp. rewrite !not_elem_of_cons in Hp.
    destruct Hp as (P1 & P2 & P3 & P4 & _). unfold remove.
    by rewrite !lookup_delete_ne. }
  unfold copy. destruct (_ !! path_join _ _); simpl; [|done].
  intros p Hp. rewrite lookup_insert_ne; [by apply Hremoved|].
  intros <-. apply Hp, db_path_live.
Qed.

Lemma clear_index confirmed fs :
  index projectPath (checkpointClear projectPath confirmed fs).2 = []
  ∨ (checkpointClear projectPath confirmed fs).2 = fs.
Proof.
  unfold checkpointClear.
  destruct (checkpoints_of _) as [entries|]; [|by right].
  case_bool_decide; [by right|].
  destruct confirmed; simpl; [|by right]. left. apply index_write.
Qed.

(** In every state the commands and the server can bring about from one
    whose index follows the data model, the index follows it. *)
Lemma reachable_derived_files fs0 fs :
  derived_files (index projectPath fs0) →
  reachable projectPath fs0 fs →
  derived_files (index projectPath fs).
Proof.
  intros Hstart. induction 1 as [|cmd fs _ _ IH|fs fs' _ IH Hsame]; [done| |].
  - destruct cmd as [timestamp iso name description|name|n|confirmed]; simpl.
    + by apply create_derived_files.
    + by rewrite (index_same_snapshots _ _ (restore_same_snapshots name fs)).
    + by apply delete_derived_files.
    + destruct (clear_index confirmed fs) as [-> | ->]; [constructor|done].
  - by rewrite (index_same_snapshots _ _ Hsame).
Qed.

End Store.

Section StoreClaims.

Variable projectPath : string.

Abbreviation dbPath := (getDatabasePath projectPath).
Abbreviation checkpointDir := (getCheckpointsPath projectPath).
Abbreviation metaPath := (metaPathOf checkpointDir).

Implicit Types (fs : FS) (c : content) (cp : Entry) (entries : list Entry).
Implicit Types (name description : option string) (n iso : string).
Implicit Types (timestamp : N).

(** C1: whatever the live data file holds (the empty content included),
    Create with name "x" succeeds when the name is free, and a later Restore
    with name "x" succeeds and leaves the live data file with the content it
    had when Create ran, whatever became of the live file and its sidecars
    in between.  The index is one the commands can work on ([meta.json] is
    not there, is not JSON, or holds an index) and one of the data model:
    the file of an entry is derived from its name. *)
Theorem create_restore_round_trip timestamp iso description fs c :
  fs !! dbPath = Some c →
  fs !! snapshotPath projectPath "x" = None →
  readable_index projectPath fs →
  derived_files (index projectPath fs) →
  ∃ fs1,
    checkpointCreate projectPath timestamp iso (Some "x") description fs
      = (Success, fs1) ∧
    ∀ fs2, same_snapshots projectPath fs1 fs2 →
      ∃ fs3,
        checkpointRestore projectPath (Some "x") fs2 = (Success, fs3) ∧
        fs3 !! dbPath = Some c.
Proof.
  intros Hdb Hfree Hr Hwf.
  pose proof (create_Success projectPath timestamp iso (Some "x") description
                fs c Hdb Hfree Hr) as Hcreate.
  pose proof (create_derived_files projectPath timestamp iso (Some "x")
                description fs Hwf) as Hwf1.
  rewrite Hcreate in Hwf1. simpl in Hwf1.
  eexists. split; [exact Hcreate|]. intros fs2 Hsame.
  change (checkpointNameOf timestamp (Some "x")) with "x" in *.
  rewrite <-(index_same_snapshots projectPath _ fs2 Hsame) in Hwf1.
  pose proof (index_same_snapshots projectPath _ fs2 Hsame) as Hidx.
  rewrite index_write in Hidx.
  destruct (select_named_is_Some "x" (index projectPath fs2)
              {| Checkpoint.name := "x"; created := iso;
                 file := "x.sqlite"; description := description |})
    as [cp Hsel]; [done| |done|].
  { rewrite Hidx. apply elem_of_app. right. left. }
  destruct (select_named_Some "x" _ cp ltac:(done) Hsel) as [Hin Hname].
  unfold derived_files in Hwf1. rewrite Forall_forall in Hwf1.
  specialize (Hwf1 cp Hin). rewrite Hname in Hwf1.
  destruct (restore_Success projectPath (Some "x") fs2 cp c Hsel)
    as (fs3 & Hrestore & Hlive & _).
  { rewrite Hwf1. fold (snapshotPath projectPath "x").
    rewrite (Hsame _ (snapshot_path_not_live projectPath "x")).
    unfold writeJSON.
    rewrite lookup_insert_ne
      by (apply not_eq_sym, snapshot_path_not_meta).
    apply lookup_insert_eq. }
  by exists fs3.
Qed.

(** C2: without a name Restore selects the last entry of the index, the one
    created last: when the backing file of that entry is there, Restore
    succeeds and the live data file gets its content.  After snapshots
    created in any order, the last of them, C, being created from a live
    file with content [c], Restore without a name brings [c] back. *)
Theorem restore_latest_wins :
  (∀ entries, select None entries = last entries) ∧
  (∀ fs cp c,
     last (index projectPath fs) = Some cp →
     fs !! path_join checkpointDir (file cp) = Some c →
     ∃ fs', checkpointRestore projectPath None fs = (Success, fs') ∧
       fs' !! dbPath = Some c) ∧
  (∀ timestamp iso name description fs c fs1 fs2,
     fs !! dbPath = Some c →
     checkpointCreate projectPath timestamp iso name description fs
       = (Success, fs1) →
     same_snapshots projectPath fs1 fs2 →
     ∃ fs3, checkpointRestore projectPath None fs2 = (Success, fs3) ∧
       fs3 !! dbPath = Some c).
Proof.
  split_and!.
  - apply select_latest.
  - intros fs cp c Hlast Hfile.
    destruct (restore_Success projectPath None fs cp c) as (fs' & ? & ? & _);
      [by rewrite select_latest|done|]. by exists fs'.
  - intros timestamp iso name description fs c fs1 fs2 Hdb Hcreate Hsame.
    destruct (create_Success_inv _ _ _ _ _ _ _ Hcreate)
      as (c' & Hdb' & Hfree & Hr & ->).
    assert (c' = c) as -> by congruence.
    pose proof (index_same_snapshots projectPath _ fs2 Hsame) as Hidx.
    rewrite index_write in Hidx.
    destruct (restore_Success projectPath None fs2
      {| Checkpoint.name := checkpointNameOf timestamp name; created := iso;
         file := checkpointNameOf timestamp name +:+ ".sqlite";
         description := description |} c) as (fs3 & ? & ? & _).
    + by rewrite select_latest, Hidx, last_snoc.
    + simpl. fold (snapshotPath projectPath (checkpointNameOf timestamp name)).
      rewrite (Hsame _ (snapshot_path_not_live projectPath _)).
      unfold writeJSON.
      rewrite lookup_insert_ne
        by (apply not_eq_sym, snapshot_path_not_meta).
      apply lookup_insert_eq.
    + by exists fs3.
Qed.

(** C6: Create with name "x" twice in a row, on an index the commands can
    work on ([meta.json] is not there, is not JSON, or holds an index) that
    has no entry named "x" and with the snapshot path free: the first call
    succeeds, the second fails with DuplicateName and changes nothing, and
    the index has exactly one entry named "x".  The failure is decided by
    the snapshot file and not by the index: the second call fails in the
    same way whatever index [meta.json] is replaced with, and where the
    snapshot file is not there Create succeeds whatever the index lists, an
    entry named "x" included. *)
Theorem create_twice_DuplicateName timestamp iso description
    timestamp' iso' description' fs c :
  fs !! dbPath = Some c →
  fs !! snapshotPath projectPath "x" = None →
  readable_index projectPath fs →
  Forall (λ cp, Checkpoint.name cp ≠ "x") (index projectPath fs) →
  ∃ fs1,
    checkpointCreate projectPath timestamp iso (Some "x") description fs
      = (Success, fs1) ∧
    checkpointCreate projectPath timestamp' iso' (Some "x") description' fs1
      = (Failure DuplicateName, fs1) ∧
    length (filter (named "x") (index projectPath fs1)) = 1 ∧
    (∀ entries,
      checkpointCreate projectPath timestamp' iso' (Some "x") description'
        (writeJSON metaPath {| checkpoints := entries |} fs1)
      = (Failure DuplicateName,
         writeJSON metaPath {| checkpoints := entries |} fs1)) ∧
    (∀ entries,
      (checkpointCreate projectPath timestamp' iso' (Some "x") description'
         (writeJSON metaPath {| checkpoints := entries |} fs)).1 = Success).
Proof.
  intros Hdb Hfree Hr Hnone.
  pose proof (create_Success projectPath timestamp iso (Some "x") description
                fs c Hdb Hfree Hr) as Hcreate.
  change (checkpointNameOf timestamp (Some "x")) with "x" in *.
  eexists. split; [exact Hcreate|].
  pose proof (meta_path_not_live projectPath) as Hml.
  pose proof (snapshot_path_not_meta projectPath "x") as Hsm.
  assert (dbPath ≠ metaPath) as Hdm.
  { intros Heq. apply Hml. rewrite <-Heq. apply db_path_live. }
  assert (dbPath ≠ snapshotPath projectPath "x") as Hds.
  { intros Heq. apply (snapshot_path_not_live projectPath "x").
    rewrite <-Heq. apply db_path_live. }
  split_and!.
  - apply create_DuplicateName; unfold writeJSON.
    + rewrite !lookup_insert_ne by done. by rewrite Hdb.
    + change (checkpointNameOf timestamp' (Some "x")) with "x".
      rewrite lookup_insert_ne by done. by rewrite lookup_insert_eq.
  - rewrite index_write, filter_app, length_app.
    rewrite (filter_named_none "x" _ Hnone).
    by rewrite filter_cons_True.
  - intros entries. apply create_DuplicateName; unfold writeJSON.
    + rewrite !lookup_insert_ne by done. by rewrite Hdb.
    + change (checkpointNameOf timestamp' (Some "x")) with "x".
      rewrite !lookup_insert_ne by done. by rewrite lookup_insert_eq.
  - intros entries.
    rewrite (create_Success projectPath timestamp' iso' (Some "x")
               description' _ c); [done| | |apply readable_write].
    + unfold writeJSON. by rewrite lookup_insert_ne.
    + change (checkpointNameOf timestamp' (Some "x")) with "x".
      unfold writeJSON. by rewrite lookup_insert_ne.
Qed.

(** C7: on an index the commands can work on ([meta.json] is not there, is
    not JSON, or holds an index), Restore fails with NotFound when a name is
    given and no entry of the index has it, and when the index is empty; it
    fails with MissingFile when the selected entry exists, its file is a
    plain name and no file of that name is in the checkpoint directory.  In
    each case the file system, and so the live data file, is as it was. *)
Theorem restore_failures :
  (∀ fs n,
     n ≠ "" →
     readable_index projectPath fs →
     Forall (λ cp, Checkpoint.name cp ≠ n) (index projectPath fs) →
     checkpointRestore projectPath (Some n) fs = (Failure NotFound, fs)) ∧
  (∀ fs name,
     readable_index projectPath fs →
     index projectPath fs = [] →
     checkpointRestore projectPath name fs = (Failure NotFound, fs)) ∧
  (∀ fs name cp,
     select name (index projectPath fs) = Some cp →
     plain (file cp) →
     fs !! path_join checkpointDir (file cp) = None →
     checkpointRestore projectPath name fs = (Failure MissingFile, fs)).
Proof.
  split_and!.
  - intros fs n Hn Hr Hnone. apply restore_NotFound; [done|].
    by apply select_named_None.
  - intros fs name Hr Hnil. apply restore_NotFound; [done|]. rewrite Hnil.
    apply select_nil.
  - intros fs name cp Hsel _. by apply restore_MissingFile.
Qed.

(** C8: on an index with exactly the two entries named [x] and [y], the
    file of [x] being a plain name, Delete of [x] succeeds whether the
    backing file of [x] is there or not, the persisted index is then exactly
    the entry of [y], unchanged, and Restore with name [x] fails with
    NotFound. *)
Theorem delete_isolated fs x y ex ey :
  Checkpoint.name ex = x → Checkpoint.name ey = y → x ≠ y → x ≠ "" →
  plain (file ex) →
  index projectPath fs = [ex; ey] ∨ index projectPath fs = [ey; ex] →
  ∃ fs',
    checkpointDelete projectPath x fs = (Success, fs') ∧
    index projectPath fs' = [ey] ∧
    checkpointRestore projectPath (Some x) fs' = (Failure NotFound, fs').
Proof.
  intros Hx Hy Hxy Hne _ Hidx.
  assert (∃ i, list_find (named x) (index projectPath fs) = Some (i, ex)
               ∧ delete i (index projectPath fs) = [ey]) as (i & Hfind & Hdel).
  { destruct Hidx as [-> | ->]; simpl.
    - exists 0. by rewrite decide_True.
    - exists 1. rewrite decide_False by (unfold named; congruence).
      by rewrite decide_True. }
  rewrite (delete_Success projectPath x fs i ex Hfind), Hdel.
  eexists. split; [done|]. rewrite index_write. split; [done|].
  apply restore_NotFound; [apply readable_write|]. rewrite index_write.
  apply select_named_None; [done|]. repeat constructor. congruence.
Qed.

End StoreClaims.

(** ** The properties at work on the sample data *)

Example restore_latest_of_three :
  (checkpointRestore site None after_abc).1 = Success ∧
  (checkpointRestore site None after_abc).2 !! getDatabasePath site
    = Some bytes_c ∧
  checkpointList site after_abc
    = Ok [entry_of "C"; entry_of "B"; entry_of "A"].
Proof. vm_compute. done. Qed.

Example restore_named_of_three :
  (checkpointRestore site (Some "A") after_abc).2 !! getDatabasePath site
    = Some bytes_a ∧
  (checkpointRestore site (Some "") after_abc).2 !! getDatabasePath site
    = Some bytes_c ∧
  (checkpointRestore site (Some "D") after_abc).1 = Failure NotFound.
Proof. vm_compute. done. Qed.

Example create_without_name :
  Checkpoint.name <$>
    index site (checkpointCreate site 1767268800000 noon None None
                  fresh_site).2
  = ["checkpoint-1767268800000"].
Proof. vm_compute. done. Qed.

Example clear_all :
  checkpointList site (checkpointClear site true after_abc).2 = Ok [] ∧
  (checkpointClear site true after_abc).2 !! snapshotPath site "B" = None ∧
  checkpointClear site false after_abc = (Success, after_abc).
Proof. vm_compute. done. Qed.

Example save_keeps_steps :
  (d ← saveBlueprint
         (Parsed (JObj {[ "steps" := JArr (createPluginSteps ["akismet"]);
                          "landingPage" := JStr "/wp-admin/" ]}))
         wp_update;
   doc ← loadBlueprint d;
   getPluginsFromBlueprint doc) = Ok [JStr "akismet"].
Proof. vm_compute. done. Qed.

(** Outside the data model the round trip and the count of entries are
    lost: Create looks at the directory and Restore at the index. *)
Example stale_entry :
  let fs1 := (checkpointCreate site 7 noon (Some "x") None site_stale).2 in
  (checkpointCreate site 7 noon (Some "x") None site_stale).1 = Success ∧
  length (filter (named "x") (index site fs1)) = 2 ∧
  (checkpointRestore site (Some "x") fs1).2 !! getDatabasePath site
    = Some bytes_b.
Proof. vm_compute. done. Qed.

(** With [{}] in [meta.json] the commands that read the index die with a
    [TypeError], and Create fails after its copy: the snapshot file stays,
    and a second Create of the name finds it. *)
Example no_index :
  let fs1 := (checkpointCreate site 7 noon (Some "x") None site_no_index).2 in
  checkpointList site site_no_index = Throw TypeError ∧
  checkpointRestore site None site_no_index
    = (Failure Uncaught, site_no_index) ∧
  checkpointDelete site "x" site_no_index
    = (Failure Uncaught, site_no_index) ∧
  checkpointClear site false site_no_index
    = (Failure Uncaught, site_no_index) ∧
  (checkpointCreate site 7 noon (Some "x") None site_no_index).1
    = Failure IOFailure ∧
  fs1 !! snapshotPath site "x" = Some bytes_a ∧
  checkpointCreate site 8 noon (Some "x") None fs1
    = (Failure DuplicateName, fs1).
Proof. cbv zeta. split_and!; vm_compute; reflexivity. Qed.

Example delete_then_restore :
  index site (checkpointDelete site "x" site_xy).2 = [entry_of "y"] ∧
  (checkpointRestore site None (checkpointDelete site "x" site_xy).2).2
    !! getDatabasePath site = Some bytes_b ∧
  checkpointDelete site "z" site_xy = (Failure NotFound, site_xy).
Proof. vm_compute. done. Qed.

(** ** The claims at the sample data *)

Lemma create_restore_round_trip_witness :
  fresh_site !! getDatabasePath site = Some (Data []) ∧
  ∃ fs1,
    checkpointCreate site 7 noon (Some "x") None fresh_site = (Success, fs1) ∧
    ∀ fs2, same_snapshots site fs1 fs2 →
      ∃ fs3,
        checkpointRestore site (Some "x") fs2 = (Success, fs3) ∧
        fs3 !! getDatabasePath site = Some (Data []).
Proof.
  split; [vm_compute; reflexivity|].
  apply (create_restore_round_trip site 7 noon None fresh_site (Data [])).
  - vm_compute. reflexivity.
  - vm_compute. reflexivity.
  - vm_compute. discriminate.
  - vm_compute. constructor.
Defined.

Lemma restore_latest_wins_witness :
  last (index site after_abc) = Some (entry_of "C") ∧
  ∃ fs', checkpointRestore site None after_abc = (Success, fs') ∧
    fs' !! getDatabasePath site = Some bytes_c.
Proof.
  split; [vm_compute; reflexivity|].
  apply (proj1 (proj2 (restore_latest_wins site)) after_abc (entry_of "C")).
  - vm_compute. reflexivity.
  - vm_compute. reflexivity.
Defined.

Lemma create_twice_DuplicateName_witness :
  ∃ fs1,
    checkpointCreate site 7 noon (Some "x") None fresh_site = (Success, fs1) ∧
    checkpointCreate site 8 noon (Some "x") (Some "again") fs1
      = (Failure DuplicateName, fs1) ∧
    length (filter (named "x") (index site fs1)) = 1 ∧
    (∀ entries,
      checkpointCreate site 8 noon (Some "x") (Some "again")
        (writeJSON (metaPathOf (getCheckpointsPath site))
           {| checkpoints := entries |} fs1)
      = (Failure DuplicateName,
         writeJSON (metaPathOf (getCheckpointsPath site))
           {| checkpoints := entries |} fs1)) ∧
    (∀ entries,
      (checkpointCreate site 8 noon (Some "x") (Some "again")
         (writeJSON (metaPathOf (getCheckpointsPath site))
            {| checkpoints := entries |} fresh_site)).1 = Success).
Proof.
  apply (create_twice_DuplicateName site 7 noon None 8 noon (Some "again")
           fresh_site (Data [])).
  - vm_compute. reflexivity.
  - vm_compute. reflexivity.
  - vm_compute. discriminate.
  - vm_compute. constructor.
Defined.

Lemma restore_failures_witness :
  checkpointRestore site (Some "z") site_xy = (Failure NotFound, site_xy) ∧
  checkpointRestore site None fresh_site = (Failure NotFound, fresh_site) ∧
  checkpointRestore site (Some "x") site_xy = (Failure MissingFile, site_xy).
Proof.
  split_and!.
  - apply (proj1 (restore_failures site) site_xy "z").
    + discriminate.
    + vm_compute. discriminate.
    + vm_compute. repeat constructor; discriminate.
  - apply (proj1 (proj2 (restore_failures site)) fresh_site None).
    + vm_compute. discriminate.
    + vm_compute. reflexivity.
  - apply (proj2 (proj2 (restore_failures site)) site_xy (Some "x")
             (entry_of "x")).
    + vm_compute. reflexivity.
    + vm_compute. split_and!; (discriminate || reflexivity).
    + vm_compute. reflexivity.
Defined.

Lemma delete_isolated_witness :
  ∃ fs',
    checkpointDelete site "x" site_xy = (Success, fs') ∧
    index site fs' = [entry_of "y"] ∧
    checkpointRestore site (Some "x") fs' = (Failure NotFound, fs').
Proof.
  apply (delete_isolated site site_xy "x" "y" (entry_of "x") (entry_of "y")).
  - reflexivity.
  - reflexivity.
  - discriminate.
  - discriminate.
  - vm_compute. split_and!; (discriminate || reflexivity).
  - left. vm_compute. reflexivity.
Defined.

Lemma plugin_list_in_order_witness :
  getPluginsFromBlueprint
    (<["steps" := JArr [install_plugin_step "akismet"; set_options_step ∅;
                        install_plugin_step "gutenberg"]]> DEFAULT_BLUEPRINT)
    = Ok [JStr "akismet"; JStr "gutenberg"] ∧
  getPluginsFromBlueprint DEFAULT_BLUEPRINT = Ok [] ∧
  getPluginsFromBlueprint {[ "steps" := JArr [set_options_step ∅] ]} = Ok [].
Proof.
  split_and!.
  - apply (proj1 (proj2 (proj2 (proj2 plugin_list_in_order)))
             DEFAULT_BLUEPRINT "akismet" "gutenberg" ∅); discriminate.
  - apply (proj1 (proj2 plugin_list_in_order) DEFAULT_BLUEPRINT).
    vm_compute. reflexivity.
  - apply (proj1 (proj2 (proj2 plugin_list_in_order))
             {[ "steps" := JArr [set_options_step ∅] ]}
             [set_options_step ∅]).
    + vm_compute. reflexivity.
    + vm_compute. reflexivity.
    + vm_compute. reflexivity.
Defined.

Lemma plugins_without_slug_omitted_witness :
  getPluginsFromBlueprint
    {[ "steps" := JArr [install_plugin_step "akismet"; url_plugin_step;
                        install_plugin_step "gutenberg"] ]}
  = getPluginsFromBlueprint
      {[ "steps" := JArr [install_plugin_step "akismet";
                          install_plugin_step "gutenberg"] ]} ∧
  getPluginsFromBlueprint
    {[ "steps" := JArr [install_plugin_step "akismet"; url_plugin_step] ]}
  = Ok (JStr <$> derive_plugin_list
                   [install_plugin_step "akismet"; url_plugin_step]).
Proof.
  split.
  - apply (proj1 plugins_without_slug_omitted ∅
             [install_plugin_step "akismet"] url_plugin_step
             [install_plugin_step "gutenberg"]).
    eexists. split; [reflexivity|]. split; [vm_compute; reflexivity|].
    right. eexists. split; [vm_compute; reflexivity|].
    left. vm_compute. reflexivity.
  - apply (proj2 (proj2 plugins_without_slug_omitted)
             {[ "steps" := JArr [install_plugin_step "akismet";
                                 url_plugin_step] ]}
             [install_plugin_step "akismet"; url_plugin_step]).
    + vm_compute. reflexivity.
    + vm_compute. reflexivity.
Defined.

Lemma loadBlueprint_top_level_defaults_witness :
  ∃ doc, loadBlueprint (Parsed wp_only_document) = Ok doc ∧
    doc !! "wpsmith" = Some (JObj {[ "port" := JNum 9400 ]}) ∧
    doc !! "preferredVersions" = Some (JObj {[ "wp" := JStr "6.7" ]}).
Proof.
  destruct (loadBlueprint_top_level_defaults wp_only_document)
    as (doc & Hload & Hdefault & Hkept).
  exists doc. split; [exact Hload|]. split.
  - rewrite (Hdefault "wpsmith"); vm_compute; reflexivity.
  - apply Hkept. vm_compute. reflexivity.
Defined.

Lemma saveBlueprint_merges_witness :
  ∃ saved,
    saveBlueprint
      (Parsed (JObj {[ "landingPage" := JStr "/wp-admin/";
                       "steps" := JArr (createPluginSteps ["akismet"]) ]}))
      {[ "steps" := JArr [] ]}
      = Ok (Parsed (JObj saved)) ∧
    saved !! "landingPage" = Some (JStr "/wp-admin/") ∧
    saved !! "steps" = Some (JArr []).
Proof.
  destruct (proj1 saveBlueprint_merges
              (Parsed (JObj {[ "landingPage" := JStr "/wp-admin/";
                               "steps" := JArr (createPluginSteps ["akismet"]) ]}))
              {[ "steps" := JArr [] ]})
    as (existing & saved & Hload & Hsave & _ & Hkeep & _ & _ & _ & Hsteps).
  exists saved. split; [exact Hsave|]. split.
  - rewrite (Hkeep "landingPage");
      [|discriminate|discriminate|vm_compute; reflexivity].
    vm_compute in Hload. injection Hload as <-. vm_compute. reflexivity.
  - apply Hsteps. vm_compute. reflexivity.
Defined.

(** * Further properties of the checkpoint commands *)

Import Store.

Section StoreEffects.

Variable projectPath : string.

Abbreviation dbPath := (getDatabasePath projectPath).
Abbreviation checkpointDir := (getCheckpointsPath projectPath).
Abbreviation metaPath := (metaPathOf checkpointDir).

Implicit Types (fs : FS) (c : content) (cp : Entry) (entries : list Entry).
Implicit Types (name description : option string) (n iso : string).
Implicit Types (timestamp : N).

Lemma db_path_not_meta : dbPath ≠ metaPath.
Proof.
  intros Heq. apply (meta_path_not_live projectPath). rewrite <-Heq.
  apply db_path_live.
Qed.

Lemma live_not_checkpoint p f :
  p ∈ livePaths projectPath → p ≠ path_join checkpointDir f.
Proof. intros Hp ->. by apply (checkpoint_path_not_live projectPath f). Qed.

Lemma checkpointNameOf_nonempty timestamp name :
  checkpointNameOf timestamp name ≠ "".
Proof.
  unfold checkpointNameOf, given.
  destruct name as [s|]; [destruct (String.eqb s "") eqn:Hs|]; simpl;
    try done. by apply String.eqb_neq.
Qed.

(** How Create ends, for a name without a separator.  It fails with
    NoLiveData exactly when the live file is missing, and with DuplicateName
    exactly when the live file is there and the snapshot path is taken; in
    both cases nothing changes.  With the live file there and the path free
    it succeeds exactly when [meta.json] is not there, is not JSON or holds
    an index.  When [meta.json] holds another JSON value the command fails
    in its [try] block after the copy: the snapshot file stays behind and
    nothing else changes. *)
Theorem create_outcome timestamp iso name description fs :
  plain_name name →
  let r := checkpointCreate projectPath timestamp iso name description fs in
  let path := snapshotPath projectPath (checkpointNameOf timestamp name) in
  (r.1 = Failure NoLiveData ↔ fs !! dbPath = None) ∧
  (r.1 = Failure DuplicateName ↔
     is_Some (fs !! dbPath) ∧ is_Some (fs !! path)) ∧
  (r.1 = Failure IOFailure ↔
     is_Some (fs !! dbPath) ∧ fs !! path = None ∧
     fs !! metaPath = Some NoIndex) ∧
  (r.1 = Success ↔
     is_Some (fs !! dbPath) ∧ fs !! path = None ∧
     readable_index projectPath fs) ∧
  (r.1 = Failure NoLiveData ∨ r.1 = Failure DuplicateName → r.2 = fs) ∧
  (r.1 = Failure IOFailure →
     r.2 !! path = fs !! dbPath ∧ ∀ p, p ≠ path → r.2 !! p = fs !! p).
Proof.
  intros _ r path. subst r path.
  destruct (fs !! dbPath) as [c|] eqn:Hdb.
  - destruct (fs !! snapshotPath projectPath (checkpointNameOf timestamp name))
      as [c'|] eqn:Hsnap.
    + rewrite create_DuplicateName by (by rewrite ?Hdb, ?Hsnap). simpl.
      split_and!; try done; split; try done; intros (? & ? & ?); done.
    + destruct (readable_or_not projectPath fs) as [Hr|Hno].
      * rewrite (create_Success _ _ _ _ _ _ c Hdb Hsnap Hr). simpl.
        split_and!; try done.
        -- split; [done|]. by intros [? []].
        -- split; [done|]. intros (_ & _ & Hno). by destruct Hr.
        -- by intros [|].
      * rewrite (create_NoIndex _ _ _ _ _ _ c Hdb Hsnap Hno). simpl.
        split_and!; try done.
        -- split; [done|]. by intros [? []].
        -- split; [done|]. intros (_ & _ & Hr). by destruct Hr.
        -- by intros [|].
        -- intros _. split; [by rewrite lookup_insert_eq|].
           intros p Hp. by rewrite lookup_insert_ne.
  - rewrite create_NoLiveData by done. simpl.
    split_and!; try done; split; try done; intros [[] ?]; done.
Qed.

(** A Create that succeeds with a name without a separator: the name is not
    empty and its file is a plain name, the live content is copied to the
    snapshot path of the name, one entry is appended to the index, and every
    other file, the live file among them, is as it was; the listing then
    starts with the new entry. *)
Theorem create_effect timestamp iso name description fs fs1 :
  plain_name name →
  checkpointCreate projectPath timestamp iso name description fs
    = (Success, fs1) →
  let n := checkpointNameOf timestamp name in
  let entry := {| Checkpoint.name := n; created := iso;
                  file := n +:+ ".sqlite"; description := description |} in
  n ≠ "" ∧
  plain (file entry) ∧
  is_Some (fs !! dbPath) ∧
  fs1 !! snapshotPath projectPath n = fs !! dbPath ∧
  index projectPath fs1 = index projectPath fs ++ [entry] ∧
  checkpointList projectPath fs1
    = Ok (entry :: reverse (index projectPath fs)) ∧
  (∀ p, p ≠ snapshotPath projectPath n → p ≠ metaPath →
     fs1 !! p = fs !! p) ∧
  (∀ p, p ∈ livePaths projectPath → fs1 !! p = fs !! p).
Proof.
  intros Hplain Hcreate n entry.
  destruct (create_Success_inv _ _ _ _ _ _ _ Hcreate)
    as (c & Hdb & Hfree & Hr & ->).
  fold n. fold entry.
  assert (Hother : ∀ p, p ≠ snapshotPath projectPath n → p ≠ metaPath →
            writeJSON metaPath
              {| checkpoints := index projectPath fs ++ [entry] |}
              (<[snapshotPath projectPath n:=c]> fs) !! p = fs !! p).
  { intros p H1 H2. unfold writeJSON. by rewrite !lookup_insert_ne. }
  split_and!.
  - apply checkpointNameOf_nonempty.
  - apply derived_plain. by apply checkpointNameOf_plain.
  - by rewrite Hdb.
  - unfold writeJSON.
    rewrite lookup_insert_ne by (apply not_eq_sym, snapshot_path_not_meta).
    by rewrite lookup_insert_eq.
  - apply index_write.
  - unfold checkpointList.
    rewrite checkpoints_readable by apply readable_write.
    by rewrite index_write, reverse_app.
  - exact Hother.
  - intros p Hp. apply Hother.
    + by apply live_not_checkpoint.
    + by apply live_not_checkpoint.
Qed.

Lemma lookup_remove_all (paths : list string) fs p :
  foldl (λ acc q, remove q acc) fs paths !! p =
    if bool_decide (p ∈ paths) then None else fs !! p.
Proof.
  revert fs. induction paths as [|q paths IH]; intros fs; cbn [foldl].
  - by rewrite bool_decide_eq_false_2 by apply not_elem_of_nil.
  - rewrite IH. unfold remove. case_bool_decide as Hin.
    + by rewrite bool_decide_eq_true_2 by (by right).
    + destruct (decide (p = q)) as [->|Hne].
      * rewrite bool_decide_eq_true_2 by left. apply lookup_delete_eq.
      * rewrite lookup_delete_ne by done.
        rewrite bool_decide_eq_false_2; [done|].
        by intros [?|?]%elem_of_cons.
Qed.

Lemma clear_removes entries fs :
  foldl (λ acc cp, remove (path_join checkpointDir (file cp)) acc) fs entries
  = foldl (λ acc q, remove q acc) fs
      ((λ cp, path_join checkpointDir (file cp)) <$> entries).
Proof.
  revert fs. induction entries as [|cp entries IH]; intros fs; [done|].
  simpl. apply IH.
Qed.

(** Clear on an index the commands can work on ([meta.json] is not there,
    is not JSON, or holds an index).  Once confirmed, on an index that is
    not empty and whose files are plain names: the index and the listing are
    empty afterwards, the backing file of every entry is gone, and every
    other file, the live files among them, is as it was.  Without
    confirmation, and on an empty index, Clear changes nothing. *)
Theorem clear_total fs :
  readable_index projectPath fs →
  (index projectPath fs ≠ [] →
   plain_files (index projectPath fs) →
   ∃ fs', checkpointClear projectPath true fs = (Success, fs') ∧
     index projectPath fs' = [] ∧
     checkpointList projectPath fs' = Ok [] ∧
     (∀ cp, cp ∈ index projectPath fs → file cp ≠ "meta.json" →
        fs' !! path_join checkpointDir (file cp) = None) ∧
     (∀ p, p ≠ metaPath →
        (∀ cp, cp ∈ index projectPath fs →
           p ≠ path_join checkpointDir (file cp)) →
        fs' !! p = fs !! p) ∧
     (∀ p, p ∈ livePaths projectPath → fs' !! p = fs !! p)) ∧
  checkpointClear projectPath false fs = (Success, fs) ∧
  (index projectPath fs = [] →
   ∀ confirmed, checkpointClear projectPath confirmed fs = (Success, fs)).
Proof.
  intros Hr. split_and!.
  - intros Hne _. unfold checkpointClear.
    rewrite (checkpoints_readable projectPath fs Hr).
    rewrite bool_decide_eq_false_2 by (by intros ?%nil_length_inv). simpl.
    rewrite clear_removes. eexists. split; [done|].
    assert (Hlook : ∀ p, p ≠ metaPath →
      writeJSON metaPath {| checkpoints := [] |}
        (foldl (λ acc q, remove q acc) fs
           ((λ cp, path_join checkpointDir (file cp))
              <$> index projectPath fs)) !! p
      = if bool_decide (p ∈ (λ cp, path_join checkpointDir (file cp))
                              <$> index projectPath fs)
        then None else fs !! p).
    { intros p Hp. unfold writeJSON. rewrite lookup_insert_ne by done.
      apply lookup_remove_all. }
    split_and!.
    + apply index_write.
    + unfold checkpointList.
      rewrite checkpoints_readable by apply readable_write.
      by rewrite index_write.
    + intros cp Hcp Hfile. rewrite Hlook.
      * rewrite bool_decide_eq_true_2; [done|].
        apply list_elem_of_fmap. by exists cp.
      * unfold metaPathOf. by intros ?%path_join_inj.
    + intros p Hp Hnot. rewrite Hlook by done.
      rewrite bool_decide_eq_false_2; [done|].
      intros (cp & -> & Hcp)%list_elem_of_fmap. by apply (Hnot cp).
    + intros p Hp. rewrite Hlook by (by apply live_not_checkpoint).
      rewrite bool_decide_eq_false_2; [done|].
      intros (cp & -> & Hcp)%list_elem_of_fmap.
      by apply (checkpoint_path_not_live projectPath (file cp)).
  - unfold checkpointClear.
    rewrite (checkpoints_readable projectPath fs Hr). by case_bool_decide.
  - intros Hnil confirmed. unfold checkpointClear.
    by rewrite (checkpoints_readable projectPath fs Hr), Hnil.
Qed.

Lemma list_find_first n (l1 l2 : list Entry) cp :
  Forall (λ cp, Checkpoint.name cp ≠ n) l1 → Checkpoint.name cp = n →
  list_find (named n) (l1 ++ cp :: l2) = Some (length l1, cp).
Proof.
  intros Hl1 Hcp. induction Hl1 as [|x l1 Hx _ IH]; simpl.
  - by rewrite decide_True.
  - rewrite decide_False by done. by rewrite IH.
Qed.

Lemma list_find_none n (l : list Entry) :
  Forall (λ cp, Checkpoint.name cp ≠ n) l → list_find (named n) l = None.
Proof.
  induction 1 as [|x l Hx _ IH]; simpl; [done|].
  rewrite decide_False by done. by rewrite IH.
Qed.

(** Delete on an index the commands can work on ([meta.json] is not there,
    is not JSON, or holds an index).  It fails with NotFound, changing
    nothing, when no entry has the name; otherwise it takes the first entry
    with the name out of the index, keeping the others in order, and, the
    file of that entry being a plain name, removes the backing file of the
    entry and leaves every other file as it was. *)
Theorem delete_effect fs n :
  readable_index projectPath fs →
  (Forall (λ cp, Checkpoint.name cp ≠ n) (index projectPath fs) →
   checkpointDelete projectPath n fs = (Failure NotFound, fs)) ∧
  (∀ l1 cp l2,
     index projectPath fs = l1 ++ cp :: l2 →
     Forall (λ cp, Checkpoint.name cp ≠ n) l1 → Checkpoint.name cp = n →
     plain (file cp) →
     ∃ fs', checkpointDelete projectPath n fs = (Success, fs') ∧
       index projectPath fs' = l1 ++ l2 ∧
       (file cp ≠ "meta.json" →
          fs' !! path_join checkpointDir (file cp) = None) ∧
       (∀ p, p ≠ metaPath → p ≠ path_join checkpointDir (file cp) →
          fs' !! p = fs !! p)).
Proof.
  intros Hr. split.
  - intros Hnone. apply delete_NotFound; [done|]. by apply list_find_none.
  - intros l1 cp l2 Hidx Hl1 Hcp _.
    rewrite (delete_Success projectPath n fs (length l1) cp)
      by (rewrite Hidx; by apply list_find_first).
    eexists. split; [done|]. rewrite index_write, Hidx. split_and!.
    + apply delete_middle.
    + intros Hfile. unfold writeJSON, remove.
      rewrite lookup_insert_ne
        by (unfold metaPathOf; by intros ?%path_join_inj).
      apply lookup_delete_eq.
    + intros p H1 H2. unfold writeJSON, remove.
      by rewrite lookup_insert_ne, lookup_delete_ne.
Qed.

(** Delete frees the name: in an index whose files are derived from the
    names, after Delete of a name that was there and has no separator in
    it, Create with that name succeeds again. *)
Theorem delete_frees_name timestamp iso description fs n cp :
  n ≠ "" →
  has_slash n = false →
  is_Some (fs !! dbPath) →
  derived_files (index projectPath fs) →
  cp ∈ index projectPath fs → Checkpoint.name cp = n →
  ∃ fs1 fs2,
    checkpointDelete projectPath n fs = (Success, fs1) ∧
    checkpointCreate projectPath timestamp iso (Some n) description fs1
      = (Success, fs2).
Proof.
  intros Hn _ [c Hdb] Hwf Hin Hcp.
  destruct (list_find_elem_of (named n) _ cp Hin Hcp) as [[i cp'] Hfind].
  pose proof Hfind as (Hi & Hcp' & _)%list_find_Some.
  unfold derived_files in Hwf. rewrite Forall_forall in Hwf.
  assert (file cp' = n +:+ ".sqlite") as Hfile.
  { rewrite <-Hcp'. apply Hwf, list_elem_of_lookup. by exists i. }
  rewrite (delete_Success projectPath n fs i cp' Hfind), Hfile.
  fold (snapshotPath projectPath n). eexists _, _. split; [done|].
  assert (checkpointNameOf timestamp (Some n) = n) as Hname.
  { unfold checkpointNameOf, given.
    by rewrite (proj2 (String.eqb_neq n "") Hn). }
  apply (create_Success projectPath timestamp iso (Some n) description _ c);
    rewrite ?Hname; [| |apply readable_write]; unfold writeJSON, remove.
  - rewrite lookup_insert_ne by (apply not_eq_sym, db_path_not_meta).
    rewrite lookup_delete_ne; [done|].
    apply not_eq_sym, live_not_checkpoint, db_path_live.
  - rewrite lookup_insert_ne
      by (apply not_eq_sym, snapshot_path_not_meta).
    apply lookup_delete_eq.
Qed.

Lemma livePaths_removed fs :
  remove (dbPath +:+ "-shm") (remove (dbPath +:+ "-wal")
    (remove (dbPath +:+ "-journal") (remove dbPath fs)))
  = foldl (λ acc q, remove q acc) fs (livePaths projectPath).
Proof. reflexivity. Qed.

Lemma restore_Success_inv name fs fs' :
  checkpointRestore projectPath name fs = (Success, fs') →
  ∃ cp c,
    select name (index projectPath fs) = Some cp ∧
    fs !! path_join checkpointDir (file cp) = Some c ∧
    fs' = <[dbPath := c]>
            (foldl (λ acc q, remove q acc) fs (livePaths projectPath)).
Proof.
  destruct (readable_or_not projectPath fs) as [Hr|Hno].
  2:{ by rewrite restore_Uncaught. }
  unfold checkpointRestore. rewrite (checkpoints_readable projectPath fs Hr).
  case_bool_decide; [done|].
  destruct (select name (index projectPath fs)) as [cp|]; [|done].
  destruct (pathExists _ fs) eqn:Hex; simpl; [|done].
  rewrite livePaths_removed. unfold copy.
  destruct (_ !! path_join checkpointDir (file cp)) as [c|] eqn:Hc; [|done].
  intros [= <-]. exists cp, c. split; [done|]. split; [|done].
  rewrite lookup_remove_all in Hc.
  by rewrite bool_decide_eq_false_2 in Hc
    by apply checkpoint_path_not_live.
Qed.

(** Restore on an index whose files are plain names.  It asks nothing of the
    live file.  It ends in success, in NotFound or MissingFile, or, exactly
    when [meta.json] holds a JSON value without an index, with an error no
    handler catches; when it does not succeed nothing has changed; when it
    succeeds the live file has the content of the backing file of the
    selected entry, the three sidecars of the database are gone, and a
    second Restore with the same argument gives the same state again. *)
Theorem restore_effect name fs :
  plain_files (index projectPath fs) →
  let r := checkpointRestore projectPath name fs in
  (r.1 = Success ∨ r.1 = Failure NotFound ∨ r.1 = Failure MissingFile ∨
   r.1 = Failure Uncaught) ∧
  (r.1 = Failure Uncaught ↔ fs !! metaPath = Some NoIndex) ∧
  (r.1 ≠ Success → r.2 = fs) ∧
  (r.1 = Success →
     ∃ cp, select name (index projectPath fs) = Some cp ∧
       is_Some (r.2 !! dbPath) ∧
       r.2 !! dbPath = fs !! path_join checkpointDir (file cp) ∧
       r.2 !! (dbPath +:+ "-journal") = None ∧
       r.2 !! (dbPath +:+ "-wal") = None ∧
       r.2 !! (dbPath +:+ "-shm") = None ∧
       checkpointRestore projectPath name r.2 = r).
Proof.
  intros _ r. subst r.
  destruct (readable_or_not projectPath fs) as [Hr|Hno].
  2:{ rewrite restore_Uncaught by done. simpl.
      split_and!; [auto 6|done|done|done]. }
  destruct (select name (index projectPath fs)) as [cp|] eqn:Hsel.
  2:{ rewrite restore_NotFound by done. simpl.
      split_and!; [auto|split; [done|by intros ?]|done|done]. }
  destruct (fs !! path_join checkpointDir (file cp)) as [c|] eqn:Hfile.
  2:{ rewrite (restore_MissingFile _ _ _ cp) by done. simpl.
      split_and!; [auto|split; [done|by intros ?]|done|done]. }
  destruct (restore_Success projectPath name fs cp c Hsel Hfile)
    as (fs' & Hrestore & Hdb & Hsame).
  rewrite Hrestore. simpl.
  split_and!; [auto|split; [done|by intros ?]|done|].
  intros _. exists cp.
  destruct (restore_Success_inv name fs fs' Hrestore)
    as (cp' & c' & Hsel' & Hfile' & Hfs').
  assert (cp' = cp) as -> by congruence.
  assert (c' = c) as -> by congruence.
  assert (Hside : ∀ p, p ∈ livePaths projectPath → p ≠ dbPath →
            fs' !! p = None).
  { intros p Hp Hne. rewrite Hfs', lookup_insert_ne by done.
    by rewrite lookup_remove_all, bool_decide_eq_true_2. }
  assert (Hdistinct : ∀ suffix, suffix ≠ "" → dbPath +:+ suffix ≠ dbPath).
  { intros suffix Hsuffix Heq. apply Hsuffix.
    rewrite <-(string_app_empty_r dbPath) in Heq at 2.
    by apply (inj (String.app dbPath)) in Heq. }
  split_and!.
  - done.
  - by rewrite Hdb.
  - by rewrite Hdb.
  - apply Hside; [|by apply Hdistinct]. right. left.
  - apply Hside; [|by apply Hdistinct]. do 2 right. left.
  - apply Hside; [|by apply Hdistinct]. do 3 right. left.
  - destruct (restore_Success projectPath name fs' cp c) as (fs'' & Hagain & _).
    + by rewrite (index_same_snapshots projectPath fs fs' Hsame).
    + by rewrite (Hsame _ (checkpoint_path_not_live projectPath (file cp))).
    + rewrite Hagain. f_equal.
      destruct (restore_Success_inv name fs' fs'' Hagain)
        as (cp2 & c2 & Hsel2 & Hfile2 & ->).
      rewrite (index_same_snapshots projectPath fs fs' Hsame) in Hsel2.
      assert (cp2 = cp) as -> by congruence.
      rewrite (Hsame _ (checkpoint_path_not_live projectPath (file cp)))
        in Hfile2.
      assert (c2 = c) as -> by congruence.
      apply map_eq. intros p. destruct (decide (p = dbPath)) as [->|Hne].
      * by rewrite lookup_insert_eq, Hdb.
      * rewrite lookup_insert_ne, lookup_remove_all by done.
        case_bool_decide as Hp; [by rewrite Hside|done].
Qed.

(** Restore never writes in the checkpoint directory: whatever its outcome,
    every file there, the index and the listing are as before. *)
Theorem restore_keeps_checkpoints name fs :
  let fs' := (checkpointRestore projectPath name fs).2 in
  (∀ f, fs' !! path_join checkpointDir f = fs !! path_join checkpointDir f) ∧
  index projectPath fs' = index projectPath fs ∧
  checkpointList projectPath fs' = checkpointList projectPath fs.
Proof.
  intros fs'. subst fs'.
  pose proof (restore_same_snapshots projectPath name fs) as Hsame.
  split_and!.
  - intros f. apply Hsame, checkpoint_path_not_live.
  - by apply index_same_snapshots.
  - unfold checkpointList, read_meta, readJSON.
    by rewrite (Hsame _ (meta_path_not_live projectPath)).
Qed.

Lemma string_app_inj_r (s1 s2 t : string) : s1 +:+ t = s2 +:+ t → s1 = s2.
Proof.
  revert s2. induction s1 as [|a s1 IH]; intros [|b s2] H; [done|..].
  - apply (f_equal String.length) in H.
    rewrite !string_length_app in H. simpl in H. lia.
  - apply (f_equal String.length) in H.
    rewrite !string_length_app in H. simpl in H. lia.
  - rewrite !string_app_cons in H. injection H as -> H. f_equal. by apply IH.
Qed.

Lemma snapshot_path_inj n1 n2 :
  snapshotPath projectPath n1 = snapshotPath projectPath n2 → n1 = n2.
Proof.
  unfold snapshotPath. intros H%path_join_inj. by apply string_app_inj_r in H.
Qed.

Lemma derived_path entries cp :
  derived_files entries → cp ∈ entries →
  path_join checkpointDir (file cp)
    = snapshotPath projectPath (Checkpoint.name cp).
Proof.
  unfold derived_files. rewrite Forall_forall. intros Hwf Hin.
  by rewrite (Hwf cp Hin).
Qed.

Lemma consistent_nil fs :
  index projectPath fs = [] → consistent projectPath fs.
Proof.
  intros Hnil. unfold consistent, backed, derived_files. rewrite Hnil.
  split_and!; constructor.
Qed.

Lemma consistent_same_snapshots fs fs' :
  same_snapshots projectPath fs fs' →
  consistent projectPath fs → consistent projectPath fs'.
Proof.
  intros Hsame (Hwf & Hne & Hnd & Hb). unfold consistent, backed in *.
  rewrite (index_same_snapshots projectPath fs fs' Hsame).
  split_and!; try done.
  eapply Forall_impl; [exact Hb|]. intros cp Hcp. simpl in *.
  by rewrite (Hsame _ (checkpoint_path_not_live projectPath (file cp))).
Qed.

Lemma consistent_create timestamp iso name description fs :
  consistent projectPath fs →
  consistent projectPath
    (checkpointCreate projectPath timestamp iso name description fs).2.
Proof.
  intros (Hwf & Hne & Hnd & Hb).
  pose proof (create_derived_files projectPath timestamp iso name description
                fs Hwf) as Hwf1.
  destruct (checkpointCreate projectPath timestamp iso name description fs)
    as [[|why] fs1] eqn:Hcreate; simpl in *.
  2:{ destruct (create_Failure_index projectPath _ _ _ _ _ _ _ Hcreate)
        as (Hidx & Hsame & Hio).
      destruct why; try (rewrite (Hsame ltac:(done)); by split_and!).
      apply consistent_nil. by rewrite Hidx, Hio. }
  pose proof (checkpointNameOf_nonempty timestamp name) as Hn.
  destruct (create_Success_inv projectPath _ _ _ _ _ _ Hcreate)
    as (c & Hdb & Hfree & Hr & Hfs1).
  set (n := checkpointNameOf timestamp name) in *.
  assert (Hsnap : is_Some (fs1 !! snapshotPath projectPath n)).
  { rewrite Hfs1. unfold writeJSON.
    rewrite lookup_insert_ne by (apply not_eq_sym, snapshot_path_not_meta).
    by rewrite lookup_insert_eq. }
  assert (Hidx : index projectPath fs1 = index projectPath fs ++
            [{| Checkpoint.name := n; created := iso;
                file := n +:+ ".sqlite"; description := description |}])
    by (rewrite Hfs1; apply index_write).
  assert (Hother : ∀ p, p ≠ snapshotPath projectPath n → p ≠ metaPath →
            fs1 !! p = fs !! p).
  { intros p H1 H2. rewrite Hfs1. unfold writeJSON.
    by rewrite !lookup_insert_ne. }
  assert (Hfresh : ∀ cp, cp ∈ index projectPath fs → Checkpoint.name cp ≠ n).
  { intros cp Hin Hcp. unfold backed in Hb. rewrite Forall_forall in Hb.
    specialize (Hb cp Hin). rewrite (derived_path _ _ Hwf Hin), Hcp in Hb.
    rewrite Hfree in Hb. by destruct Hb. }
  unfold consistent, backed. rewrite Hidx. split_and!.
  - by rewrite <-Hidx.
  - apply Forall_app. split; [done|]. by repeat constructor.
  - rewrite fmap_app. apply NoDup_app. split_and!; [done| |].
    + intros x (cp & -> & Hin)%list_elem_of_fmap [Heq|[]%elem_of_nil]%elem_of_cons.
      by apply (Hfresh cp).
    + apply NoDup_singleton.
  - apply Forall_app. split.
    + unfold backed in Hb. rewrite Forall_forall in *. intros cp Hin.
      rewrite Hother; [by apply Hb| |].
      * rewrite (derived_path _ _ Hwf Hin). intros Heq%snapshot_path_inj.
        by apply (Hfresh cp).
      * rewrite (derived_path _ _ Hwf Hin). apply snapshot_path_not_meta.
    + repeat constructor. simpl. by fold (snapshotPath projectPath n).
Qed.

Lemma consistent_delete n fs :
  consistent projectPath fs →
  consistent projectPath (checkpointDelete projectPath n fs).2.
Proof.
  intros (Hwf & Hne & Hnd & Hb).
  destruct (list_find (named n) (index projectPath fs)) as [[i cp]|] eqn:Hfind.
  2:{ destruct (readable_or_not projectPath fs) as [Hr|Hno].
      - rewrite (delete_NotFound projectPath _ _ Hr Hfind). by split_and!.
      - rewrite (delete_Uncaught projectPath _ _ Hno). by split_and!. }
  apply list_find_Some in Hfind as (Hi & Hcp & _).
  pose proof (take_drop_middle _ _ _ Hi) as Hsplit.
  set (l1 := take i (index projectPath fs)) in *.
  set (l2 := drop (S i) (index projectPath fs)) in *.
  rewrite <-Hsplit in Hwf, Hne, Hnd.
  rewrite fmap_app, fmap_cons in Hnd.
  apply NoDup_app in Hnd as (Hnd1 & Hnot1 & [Hnot2 Hnd2]%NoDup_cons).
  apply Forall_app in Hwf as [Hwf1 [Hwfc Hwf2]%Forall_cons].
  apply Forall_app in Hne as [Hne1 [Hnec Hne2]%Forall_cons].
  assert (Hother : ∀ cp', cp' ∈ l1 ++ l2 →
            Checkpoint.name cp' ≠ Checkpoint.name cp).
  { intros cp' [Hin|Hin]%elem_of_app Heq.
    - apply (Hnot1 (Checkpoint.name cp')); [by apply list_elem_of_fmap_2|].
      rewrite Heq. left.
    - apply Hnot2. rewrite <-Heq. by apply list_elem_of_fmap_2. }
  assert (Hfirst : list_find (named n) (index projectPath fs)
                     = Some (length l1, cp)).
  { rewrite <-Hsplit. apply list_find_first; [|done].
    apply Forall_forall. intros cp' Hin. rewrite <-Hcp.
    apply Hother, elem_of_app. by left. }
  rewrite (delete_Success projectPath n fs (length l1) cp Hfirst). simpl.
  assert (Hsame : ∀ p, p ≠ metaPath → p ≠ path_join checkpointDir (file cp) →
            writeJSON metaPath
              {| checkpoints := delete (length l1) (index projectPath fs) |}
              (remove (path_join checkpointDir (file cp)) fs) !! p = fs !! p).
  { intros p H1 H2. unfold writeJSON, remove.
    by rewrite lookup_insert_ne, lookup_delete_ne. }
  unfold consistent, backed. rewrite index_write.
  rewrite <-Hsplit at 1 2 3 4. rewrite delete_middle.
  assert (derived_files (l1 ++ l2)) as Hwf' by (by apply Forall_app).
  split_and!.
  - done.
  - by apply Forall_app.
  - rewrite fmap_app. apply NoDup_app. split_and!; [done| |done].
    intros x Hx1 Hx2. apply (Hnot1 x Hx1). by right.
  - apply Forall_forall. intros cp' Hin.
    unfold backed in Hb. rewrite Forall_forall in Hb.
    rewrite Hsame.
    + apply Hb. rewrite <-Hsplit.
      apply elem_of_app in Hin as [?|?]; apply elem_of_app; [by left|].
      right. by right.
    + rewrite (derived_path _ _ Hwf' Hin). apply snapshot_path_not_meta.
    + rewrite (derived_path _ _ Hwf' Hin), Hwfc.
      fold (snapshotPath projectPath (Checkpoint.name cp)).
      intros Heq%snapshot_path_inj. by apply (Hother cp').
Qed.

Lemma consistent_run cmd fs :
  consistent projectPath fs → consistent projectPath (run projectPath cmd fs).2.
Proof.
  intros Hc.
  destruct cmd as [timestamp iso name description|name|n|confirmed]; simpl.
  - by apply consistent_create.
  - eapply consistent_same_snapshots; [|done]. apply restore_same_snapshots.
  - by apply consistent_delete.
  - destruct (clear_index projectPath confirmed fs) as [Hnil | ->]; [|done].
    by apply consistent_nil.
Qed.

(** Commands with plain names keep the files of the index plain. *)
Lemma plain_files_run cmd fs :
  plain_command cmd →
  plain_files (index projectPath fs) →
  plain_files (index projectPath (run projectPath cmd fs).2).
Proof.
  intros Hcmd Hplain.
  destruct cmd as [timestamp iso name description|name|n|confirmed]; simpl.
  - destruct (checkpointCreate projectPath timestamp iso name description fs)
      as [[|why] fs1] eqn:Hcreate; simpl.
    + destruct (create_Success_inv projectPath _ _ _ _ _ _ Hcreate)
        as (c & _ & _ & _ & ->).
      rewrite index_write. apply Forall_app. split; [done|].
      repeat constructor; simpl;
        apply derived_plain; by apply checkpointNameOf_plain.
    + by destruct (create_Failure_index projectPath _ _ _ _ _ _ _ Hcreate)
        as (-> & _).
  - by rewrite (index_same_snapshots projectPath _ _
                  (restore_same_snapshots projectPath name fs)).
  - destruct (list_find (named n) (index projectPath fs)) as [[i cp]|]
      eqn:Hfind.
    + rewrite (delete_Success projectPath _ _ _ _ Hfind). simpl.
      rewrite index_write. unfold plain_files in *.
      rewrite Forall_forall in *. intros x Hx. apply Hplain.
      by apply (list_elem_of_delete_inv x i).
    + destruct (readable_or_not projectPath fs) as [Hr|Hno].
      * by rewrite (delete_NotFound projectPath _ _ Hr Hfind).
      * by rewrite (delete_Uncaught projectPath _ _ Hno).
  - destruct (clear_index projectPath confirmed fs) as [-> | ->];
      [constructor|done].
Qed.

(** The commands, given names without a separator, and the server keep the
    store consistent: from a consistent state whose files are plain names,
    files stay plain and derived from the names, names stay non-empty and
    unique in the index, and every entry keeps its backing file. *)
Theorem reachable_consistent fs0 fs :
  consistent projectPath fs0 →
  plain_files (index projectPath fs0) →
  reachable projectPath fs0 fs →
  consistent projectPath fs ∧ plain_files (index projectPath fs).
Proof.
  intros Hstart Hplain.
  induction 1 as [|cmd fs Hcmd _ [IH1 IH2]|fs fs' _ [IH1 IH2] Hsame]; [done| |].
  - split; [by apply consistent_run|by apply plain_files_run].
  - split; [by apply (consistent_same_snapshots fs)|].
    by rewrite (index_same_snapshots projectPath _ _ Hsame).
Qed.

(** In a consistent store every listed checkpoint can be restored: Restore
    with the name of an entry succeeds and gives the live file the content
    of the snapshot of that name, and Restore without a name succeeds as
    soon as the index is not empty. *)
Theorem restore_listed fs :
  consistent projectPath fs →
  (∀ cp, cp ∈ index projectPath fs →
     ∃ fs', checkpointRestore projectPath (Some (Checkpoint.name cp)) fs
              = (Success, fs') ∧
       is_Some (fs' !! dbPath) ∧
       fs' !! dbPath = fs !! snapshotPath projectPath (Checkpoint.name cp)) ∧
  (index projectPath fs ≠ [] →
     ∃ fs', checkpointRestore projectPath None fs = (Success, fs') ∧
       is_Some (fs' !! dbPath)).
Proof.
  intros (Hwf & Hne & Hnd & Hb). unfold backed in Hb.
  rewrite Forall_forall in Hb, Hne.
  assert (Hsel : ∀ name cp, select name (index projectPath fs) = Some cp →
            cp ∈ index projectPath fs →
            ∃ fs', checkpointRestore projectPath name fs = (Success, fs') ∧
              is_Some (fs' !! dbPath) ∧
              fs' !! dbPath
                = fs !! snapshotPath projectPath (Checkpoint.name cp)).
  { intros name cp Hsel Hin. destruct (Hb cp Hin) as [c Hc].
    destruct (restore_Success projectPath name fs cp c Hsel Hc)
      as (fs' & Hrestore & Hdb & _).
    exists fs'. rewrite Hdb, <-(derived_path _ _ Hwf Hin), Hc. by split_and!. }
  split.
  - intros cp Hin.
    destruct (select_named_is_Some (Checkpoint.name cp) _ cp (Hne cp Hin)
                Hin eq_refl) as [cp' Hsel'].
    destruct (select_named_Some _ _ cp' (Hne cp Hin) Hsel') as [Hin' Hname].
    destruct (Hsel _ cp' Hsel' Hin') as (fs' & ? & ? & Hdb).
    exists fs'. rewrite Hname in Hdb. by split_and!.
  - intros Hnonempty.
    destruct (last (index projectPath fs)) as [cp|] eqn:Hlast.
    2:{ by apply last_None in Hlast. }
    destruct (Hsel None cp) as (fs' & ? & ? & _).
    + by rewrite select_latest.
    + by apply last_Some_elem_of.
    + by exists fs'.
Qed.

End StoreEffects.

(** * Further properties of the configuration document *)

Import Steps.

Section ConfigEffects.

Implicit Types (d : on_disk) (doc partial existing : gmap string json).
Implicit Types (k j : string) (v step : json) (steps pre post : list json).

Lemma merge_has_schema existing partial :
  is_Some (merge existing partial !! "$schema").
Proof.
  unfold merge. rewrite lookup_spread.
  destruct (_ !! "$schema"); [by eexists|]. by rewrite lookup_insert_eq.
Qed.

Lemma load_merge existing partial :
  loadBlueprint (Parsed (JObj (merge existing partial)))
    = Ok (merge existing partial).
Proof.
  rewrite loadBlueprint_Parsed. f_equal. simpl. apply map_eq. intros k.
  destruct (merge existing partial !! k) as [x|] eqn:Hk.
  - by apply lookup_union_Some_l.
  - rewrite lookup_union_r by done.
    destruct (DEFAULT_BLUEPRINT !! k) as [y|] eqn:Hd; [|done]. exfalso.
    destruct (decide (k = "preferredVersions")) as [->|Hpv].
    { by rewrite merge_lookup_preferredVersions in Hk. }
    destruct (decide (k = "wpsmith")) as [->|Hw].
    { by rewrite merge_lookup_wpsmith in Hk. }
    destruct (decide (k = "$schema")) as [->|Hs].
    { destruct (merge_has_schema existing partial) as [x Hx]. congruence. }
    unfold DEFAULT_BLUEPRINT in Hd. by simplify_map_eq.
Qed.

Lemma saveBlueprint_Ok d partial existing :
  loadBlueprint d = Ok existing →
  saveBlueprint d partial = Ok (Parsed (JObj (merge existing partial))).
Proof. intros Hload. unfold saveBlueprint. by rewrite Hload. Qed.

Lemma merge_lookup_partial existing partial k x :
  k ≠ "preferredVersions" → k ≠ "wpsmith" → partial !! k = Some x →
  merge existing partial !! k = Some x.
Proof.
  intros Hpv Hw Hp. unfold merge. rewrite lookup_spread.
  rewrite !lookup_insert_ne by done. by rewrite lookup_spread, Hp.
Qed.

Lemma spread_twice (a b : gmap string json) : spread (spread a b) b = spread a b.
Proof.
  apply map_eq. intros k. rewrite !lookup_spread. by destruct (b !! k).
Qed.

Lemma merge_idempotent existing partial :
  merge (merge existing partial) partial = merge existing partial.
Proof.
  apply map_eq. intros k.
  destruct (decide (k = "preferredVersions")) as [->|Hpv].
  { rewrite merge_lookup_preferredVersions.
    rewrite (merge_lookup_preferredVersions existing). simpl.
    by rewrite spread_twice. }
  destruct (decide (k = "wpsmith")) as [->|Hw].
  { rewrite merge_lookup_wpsmith. rewrite (merge_lookup_wpsmith existing).
    simpl. by rewrite spread_twice. }
  rewrite merge_lookup_other by (done || apply merge_has_schema).
  destruct (partial !! k) as [x|] eqn:Hp; [|done].
  by rewrite (merge_lookup_partial existing partial k x).
Qed.

(** Saving the same partial document a second time changes nothing. *)
Theorem saveBlueprint_idempotent d partial d1 :
  saveBlueprint d partial = Ok d1 → saveBlueprint d1 partial = Ok d1.
Proof.
  destruct (loadBlueprint_total d) as [existing Hload].
  rewrite (saveBlueprint_Ok d partial existing Hload). intros [= <-].
  rewrite (saveBlueprint_Ok _ partial _ (load_merge existing partial)).
  by rewrite merge_idempotent.
Qed.

(** What a Save that completes has written: an object that has a [$schema],
    a [preferredVersions] object and a [wpsmith] object, whatever the file
    held before and whatever is saved.  Over a file that could not be read
    or parsed it has written the merge of the defaults and the argument, as
    if there had been no file: nothing of the old text is kept.  Whether the
    write itself goes through is not part of the statement. *)
Theorem saveBlueprint_written d partial d' :
  saveBlueprint d partial = Ok d' →
  ∃ saved pv ext,
    d' = Parsed (JObj saved) ∧
    is_Some (saved !! "$schema") ∧
    saved !! "preferredVersions" = Some (JObj pv) ∧
    saved !! "wpsmith" = Some (JObj ext) ∧
    ((∀ v, d ≠ Parsed v) → saved = merge DEFAULT_BLUEPRINT partial).
Proof.
  intros Hsave.
  destruct (loadBlueprint_total d) as [existing Hload].
  rewrite (saveBlueprint_Ok _ _ _ Hload) in Hsave. injection Hsave as <-.
  eexists (merge existing partial), _, _.
  split; [done|]. split; [apply merge_has_schema|].
  split; [apply merge_lookup_preferredVersions|].
  split; [apply merge_lookup_wpsmith|].
  intros Hd. destruct d as [| |v].
  - by injection Hload as <-.
  - by injection Hload as <-.
  - by destruct (Hd v).
Qed.

Lemma get_throws (o : option json) k e : get o k = Throw e → e = TypeError.
Proof. destruct o as [[]|]; simpl; congruence. Qed.

Lemma is_install_plugin_throws step e :
  is_install_plugin step = Throw e → e = TypeError.
Proof.
  unfold is_install_plugin.
  destruct (get (Some step) "step") as [tag|e'] eqn:Hget; simpl.
  - destruct (is_tag "installPlugin" tag); [|done].
    destruct step; simpl; congruence.
  - intros [= <-]. by apply get_throws in Hget.
Qed.

Lemma slug_of_throws step e : slug_of step = Throw e → e = TypeError.
Proof.
  unfold slug_of.
  destruct (get (Some step) "pluginData") as [pd|e'] eqn:Hget; simpl.
  - apply get_throws.
  - intros [= <-]. by apply get_throws in Hget.
Qed.

Lemma filterM_throws {A} (p : A → Res bool) (l : list A) e :
  (∀ x e', p x = Throw e' → e' = TypeError) →
  filterM p l = Throw e → e = TypeError.
Proof.
  intros Hp. induction l as [|x l IH]; simpl; [done|].
  destruct (p x) as [keep|e'] eqn:Hx; simpl.
  - destruct (filterM p l); simpl; [done|]. intros [= <-]. by apply IH.
  - intros [= <-]. by apply (Hp x).
Qed.

Lemma mapM_res_throws {A B} (f : A → Res B) (l : list A) e :
  (∀ x e', f x = Throw e' → e' = TypeError) →
  mapM_res f l = Throw e → e = TypeError.
Proof.
  intros Hf. induction l as [|x l IH]; simpl; [done|].
  destruct (f x) as [y|e'] eqn:Hx; simpl.
  - destruct (mapM_res f l); simpl; [done|]. intros [= <-]. by apply IH.
  - intros [= <-]. by apply (Hf x).
Qed.

Lemma passes_throws steps e : passes steps = Throw e → e = TypeError.
Proof.
  unfold passes.
  destruct (filterM is_install_plugin steps) as [picked|e'] eqn:Hf; simpl.
  - destruct (mapM_res slug_of picked) as [slugs|e''] eqn:Hm; simpl; [done|].
    intros [= <-]. eapply mapM_res_throws; [|done]. apply slug_of_throws.
  - intros [= <-]. eapply filterM_throws; [|done].
    apply is_install_plugin_throws.
Qed.

Lemma passes_breaks pre step post :
  breaks step → passes (pre ++ step :: post) = Throw TypeError.
Proof.
  intros Hstep.
  destruct (passes (pre ++ step :: post)) as [r|e] eqn:Hp.
  2:{ by rewrite (passes_throws _ _ Hp). }
  exfalso. revert Hp. unfold passes. rewrite filterM_app. simpl.
  destruct (filterM is_install_plugin pre) as [a|]; simpl; [|done].
  destruct Hstep as [-> | (m & -> & Htag & Hpd)]; [done|].
  rewrite (is_install_plugin_tagged m Htag).
  rewrite bool_decide_eq_true_2 by (by rewrite Hpd). simpl.
  destruct (filterM is_install_plugin post) as [b|]; simpl; [|done].
  rewrite mapM_res_app. simpl.
  destruct (mapM_res slug_of a) as [sa|]; simpl; [|done].
  assert (slug_of (JObj m) = Throw TypeError) as ->; [|done].
  unfold slug_of. simpl. by rewrite Hpd.
Qed.

(** The failures of [getPluginsFromBlueprint]: it throws nothing but a
    [TypeError]; a falsy [steps] ([null], [false], [0], the empty string)
    gives the empty list; a truthy [steps] that is not an array throws; so
    does an array with a [null] step or with an install-plugin step whose
    [pluginData] is [null], wherever the step stands. *)
Theorem getPlugins_failures :
  (∀ blueprint e,
     getPluginsFromBlueprint blueprint = Throw e → e = TypeError) ∧
  (∀ blueprint,
     truthy (blueprint !! "steps") = false →
     getPluginsFromBlueprint blueprint = Ok []) ∧
  (∀ blueprint,
     truthy (blueprint !! "steps") = true →
     (∀ l, blueprint !! "steps" ≠ Some (JArr l)) →
     getPluginsFromBlueprint blueprint = Throw TypeError) ∧
  (∀ rest pre step post,
     breaks step →
     getPluginsFromBlueprint (<["steps" := JArr (pre ++ step :: post)]> rest)
       = Throw TypeError).
Proof.
  split_and!.
  - intros blueprint e. unfold getPluginsFromBlueprint.
    destruct (truthy (blueprint !! "steps")); simpl; [|done].
    destruct (blueprint !! "steps") as [[| | | |l|]|]; simpl; try congruence.
    apply passes_throws.
  - intros blueprint Hfalsy. unfold getPluginsFromBlueprint.
    by rewrite Hfalsy.
  - intros blueprint Htruthy Hnot. unfold getPluginsFromBlueprint.
    rewrite Htruthy. simpl.
    destruct (blueprint !! "steps") as [[| | | |l|]|]; simpl; try done.
    by destruct (Hnot l).
  - intros rest pre step post Hstep.
    rewrite (getPlugins_passes _ (pre ++ step :: post))
      by apply lookup_insert_eq.
    by apply passes_breaks.
Qed.

Lemma passes_created plugins :
  passes (createPluginSteps plugins)
    = Ok (JStr <$> filter (λ slug, slug ≠ "") plugins).
Proof.
  induction plugins as [|slug plugins IH]; [done|].
  rewrite createPluginSteps_cons.
  destruct (decide (slug = "")) as [->|Hslug].
  - rewrite filter_cons_False by (by intros []).
    assert (passes [install_plugin_step ""] = Ok []) as Hempty
      by (vm_compute; reflexivity).
    by rewrite (passes_cons_Ok _ _ [] _ Hempty IH).
  - rewrite filter_cons_True by done.
    rewrite (passes_cons_Ok _ _ [JStr slug]
               (JStr <$> filter (λ slug, slug ≠ "") plugins));
      [done| |done].
    rewrite passes_typed_step by done.
    by rewrite derive_plugin_list_cons, plugin_identifier_created.
Qed.

(** What [wpsmith new] records can be read back: once the blueprint of a
    new project is saved, whatever the file held before, Load returns a
    document with the chosen versions and with the schema identifier, and
    the plugin list derived from it is the list of plugins of the project
    (the ticked ones, then the flagged ones), in order.  The port is read
    back when [--port] was a number; when [parseInt] made [NaN] of it, what
    is read back is [null], and not the port asked for nor the default. *)
Theorem new_blueprint_round_trip d (o : New.options) (port : option Z) d' :
  New.createBlueprint d o port = Ok d' →
  ∃ doc,
    loadBlueprint d' = Ok doc ∧
    getPluginsFromBlueprint doc
      = Ok (JStr <$> filter (λ slug, slug ≠ "") (New.pluginsOf o)) ∧
    props (doc !! "preferredVersions") !! "php" = Some (JStr (New.php o)) ∧
    props (doc !! "preferredVersions") !! "wp" = Some (JStr (New.wp o)) ∧
    (∀ p, port = Some p →
       props (doc !! "wpsmith") !! "port" = Some (JNum p)) ∧
    (port = None → props (doc !! "wpsmith") !! "port" = Some JNull) ∧
    doc !! "$schema" = Some (JStr BLUEPRINT_SCHEMA).
Proof.
  intros Hsave.
  destruct (loadBlueprint_total d) as [existing Hload].
  unfold New.createBlueprint in Hsave.
  rewrite (saveBlueprint_Ok _ _ _ Hload) in Hsave. injection Hsave as <-.
  exists (merge existing (New.blueprintOf o port)).
  split; [apply load_merge|].
  assert (Hsteps : New.blueprintOf o port !! "steps"
            = Some (JArr (createPluginSteps (New.pluginsOf o)))).
  { unfold New.blueprintOf. by simplify_map_eq. }
  assert (Hpv : New.blueprintOf o port !! "preferredVersions"
            = Some (JObj {[ "php" := JStr (New.php o);
                            "wp" := JStr (New.wp o) ]})).
  { unfold New.blueprintOf. by simplify_map_eq. }
  assert (Hext : New.blueprintOf o port !! "wpsmith"
            = Some (JObj {[ "port" := New.port_value port ]})).
  { unfold New.blueprintOf. by simplify_map_eq. }
  assert (Hschema : New.blueprintOf o port !! "$schema"
            = Some (JStr BLUEPRINT_SCHEMA)).
  { unfold New.blueprintOf. by simplify_map_eq. }
  split_and!.
  - rewrite (getPlugins_passes _ (createPluginSteps (New.pluginsOf o))).
    + apply passes_created.
    + by apply merge_lookup_partial.
  - rewrite merge_lookup_preferredVersions, Hpv. simpl.
    rewrite lookup_spread. by simplify_map_eq.
  - rewrite merge_lookup_preferredVersions, Hpv. simpl.
    rewrite lookup_spread. by simplify_map_eq.
  - intros p ->. rewrite merge_lookup_wpsmith, Hext. simpl.
    rewrite lookup_spread. by simplify_map_eq.
  - intros ->. rewrite merge_lookup_wpsmith, Hext. simpl.
    rewrite lookup_spread. by simplify_map_eq.
  - by apply merge_lookup_partial.
Qed.

End ConfigEffects.

(** * The arguments of the server *)

Section ServeArguments.

Implicit Types (d : on_disk) (doc : gmap string json) (o : Serve.options).

Lemma loaded_lookup d doc k :
  loadBlueprint d = Ok doc →
  doc !! k = match d with
             | Parsed v =>
                 match props (Some v) !! k with
                 | Some x => Some x
                 | None => DEFAULT_BLUEPRINT !! k
                 end
             | _ => DEFAULT_BLUEPRINT !! k
             end.
Proof.
  intros Hload. destruct d as [| |v].
  - by injection Hload as <-.
  - by injection Hload as <-.
  - rewrite loadBlueprint_Parsed in Hload. injection Hload as <-.
    destruct (props (Some v) !! k) as [x|] eqn:Hk.
    + by apply lookup_union_Some_l.
    + by rewrite lookup_union_r.
Qed.

(** When [blueprint.json] says nothing of a runtime version and no version
    is given on the command line, the server is started with PHP 8.3 and
    without a [--wp] argument, whatever else the file holds. *)
Theorem serve_default_versions projectPath d doc o detected :
  loadBlueprint d = Ok doc →
  Serve.versions_unset d →
  Serve.php o = None → Serve.wp o = None →
  Serve.serveArgs projectPath o doc detected =
    [ "--yes"; "@wp-playground/cli"; "server";
      "--wordpress-install-mode=do-not-attempt-installing";
      "--skip-sqlite-setup";
      "--mount=" +:+ projectPath +:+ ":/wordpress";
      "--port=" +:+ pretty detected;
      "--php=8.3" ]
    ++ (if Serve.xdebug o then ["--xdebug"] else []) ++ ["--login"].
Proof.
  intros Hload Hunset Hphp Hwp.
  pose proof (loaded_lookup d doc "preferredVersions" Hload) as Hpv.
  assert (Serve.phpOf o doc = Some (JStr "8.3")
          ∧ (Serve.wpOf o doc = None
             ∨ Serve.wpOf o doc = Some (JStr "latest"))) as [Hp Hw].
  { unfold Serve.phpOf, Serve.wpOf. rewrite Hphp, Hwp, Hpv. simpl.
    destruct d as [| |v]; simpl in *.
    - split; [done|by right].
    - split; [done|by right].
    - destruct Hunset as [-> | (m & -> & Hmp & Hmw)].
      + split; [done|by right].
      + simpl. rewrite Hmp, Hmw. split; [done|by left]. }
  unfold Serve.serveArgs. rewrite Hp. by destruct Hw as [-> | ->].
Qed.

(** The port fallbacks.  With [--port] its text is parsed.  Without it, and
    with a [wpsmith] object that has no [port] in [blueprint.json], [serve]
    parses the text "undefined" (the '9400' of its chain is not reached),
    while [db:fresh] builds its URL with 9400; when the file has no
    [wpsmith] at all, or cannot be read, both use 9400. *)
Theorem port_fallbacks d doc o :
  loadBlueprint d = Ok doc →
  (∀ text, Serve.port o = Some text → text ≠ "" →
     Serve.requestedPortText o doc = text) ∧
  (Serve.port o = None →
   (∀ v m, d = Parsed v → props (Some v) !! "wpsmith" = Some (JObj m) →
      m !! "port" = None →
      Serve.requestedPortText o doc = "undefined" ∧
      Serve.freshUrl doc = "--url=http://localhost:9400") ∧
   ((∀ v, d = Parsed v → props (Some v) !! "wpsmith" = None) →
      Serve.requestedPortText o doc = "9400" ∧
      Serve.freshUrl doc = "--url=http://localhost:9400")).
Proof.
  intros Hload.
  pose proof (loaded_lookup d doc "wpsmith" Hload) as Hext.
  split; [|intros Hport; split].
  - intros text Hport Htext%String.eqb_neq.
    unfold Serve.requestedPortText, Serve.or_else. rewrite Hport. simpl.
    rewrite Htext. simpl. by rewrite Htext.
  - intros v m -> Hv Hm. rewrite Hv in Hext.
    unfold Serve.requestedPortText, Serve.freshUrl. rewrite Hport, Hext.
    simpl. by rewrite Hm.
  - intros Hnone.
    assert (doc !! "wpsmith" = DEFAULT_BLUEPRINT !! "wpsmith") as Hd.
    { destruct d as [| |v]; [done..|]. by rewrite Hext, (Hnone v). }
    unfold Serve.requestedPortText, Serve.freshUrl. by rewrite Hport, Hd.
Qed.

End ServeArguments.

(** * Finding the project, and relative times *)

Section ProjectPath.

Import Utils.

Variable existsSync : dir → bool.

Implicit Types (d cwd : dir).

Lemma dirname_length d : length (dirname d) = length d - 1.
Proof. unfold dirname. rewrite length_take. lia. Qed.

Lemma dirname_root d : d = dirname d ↔ d = [].
Proof.
  split; [|by intros ->]. intros Heq.
  apply (f_equal length) in Heq. rewrite dirname_length in Heq.
  destruct d; [done|simpl in Heq; lia].
Qed.

Lemma dirname_prefix d : dirname d `prefix_of` d.
Proof. unfold dirname. apply prefix_take. Qed.

(** A directory between the parent of [d] and [d] is one of the two. *)
Lemma prefix_step d d' :
  d' `prefix_of` d → d' = d ∨ d' `prefix_of` dirname d.
Proof.
  intros [k Hk]. destruct (decide (k = [])) as [->|Hne].
  - left. by rewrite app_nil_r in Hk.
  - right. destruct (exists_last Hne) as (k' & x & ->). subst d.
    unfold dirname. rewrite !length_app. simpl.
    replace (length d' + (length k' + 1) - 1) with (length (d' ++ k'))
      by (rewrite length_app; lia).
    rewrite (app_assoc d' k' [x]), take_app_length. by exists k'.
Qed.

(** The loop, turned into what it finds: the deepest directory from [cwd]
    up, the root left out, that has a marker. *)
Lemma walk_Some fuel cwd d :
  walk existsSync fuel cwd = Some d →
  d ≠ [] ∧ d `prefix_of` cwd ∧ isWordPressProject existsSync d = true ∧
  ∀ d', d `prefix_of` d' → d' `prefix_of` cwd → d' ≠ d →
    isWordPressProject existsSync d' = false.
Proof.
  revert cwd. induction fuel as [|fuel IH]; intros cwd; simpl; [done|].
  case_bool_decide as Hroot; [|done].
  destruct (existsSync (join cwd ".wordsmith.json")
            || existsSync (join cwd "wp-config.php")) eqn:Hmark.
  - intros [= <-]. split_and!; [|done|done|].
    + by intros ->.
    + intros d' H1 H2 Hne. destruct Hne. by apply (anti_symm prefix).
  - intros (Hne & Hpre & Hd & Hnear)%IH. split_and!; [done| |done|].
    + etrans; [done|apply dirname_prefix].
    + intros d' H1 H2 Hd'. destruct (prefix_step cwd d' H2) as [->|H3].
      * done.
      * by apply Hnear.
Qed.

Lemma walk_None fuel cwd :
  length cwd < fuel →
  walk existsSync fuel cwd = None →
  ∀ d, d `prefix_of` cwd → d ≠ [] → isWordPressProject existsSync d = false.
Proof.
  revert cwd. induction fuel as [|fuel IH]; intros cwd Hfuel; [lia|]. simpl.
  case_bool_decide as Hroot.
  - destruct (existsSync (join cwd ".wordsmith.json")
              || existsSync (join cwd "wp-config.php")) eqn:Hmark; [done|].
    intros Hwalk d Hpre Hd. destruct (prefix_step cwd d Hpre) as [->|H3].
    + done.
    + apply (IH (dirname cwd)); [|done..].
      rewrite dirname_length. destruct cwd as [|x cwd]; [by destruct Hroot|].
      simpl in Hfuel |- *. lia.
  - intros _ d Hpre Hd.
    apply dirname_root in Hroot as ->. by apply prefix_nil_inv in Hpre.
Qed.

(** What [getProjectPath] returns is a WordPress project at or above the
    working directory, and the nearest one: no directory between it and the
    working directory has a marker.  A working directory that is itself a
    project, the root apart, is returned as it is; the root is returned only
    from the root. *)
Theorem getProjectPath_nearest cwd :
  (∀ d, getProjectPath existsSync cwd = Some d →
     d `prefix_of` cwd ∧
     isWordPressProject existsSync d = true ∧
     (d = [] → cwd = []) ∧
     ∀ d', d `prefix_of` d' → d' `prefix_of` cwd → d' ≠ d →
       isWordPressProject existsSync d' = false) ∧
  (cwd ≠ [] → isWordPressProject existsSync cwd = true →
     getProjectPath existsSync cwd = Some cwd).
Proof.
  split.
  - intros d. unfold getProjectPath.
    destruct (walk existsSync (S (length cwd)) cwd) as [d0|] eqn:Hwalk.
    + intros [= <-].
      destruct (walk_Some _ _ _ Hwalk) as (Hne & Hpre & Hd & Hnear).
      by split_and!.
    + destruct (existsSync (join cwd "wp-config.php")) eqn:Hconf; [|done].
      intros [= <-]. split_and!; [done| |done|].
      * unfold isWordPressProject. rewrite Hconf. apply orb_true_r.
      * intros d' H1 H2 Hne. destruct Hne. by apply (anti_symm prefix).
  - intros Hne Hmark. unfold getProjectPath. simpl.
    rewrite bool_decide_eq_true_2 by (by rewrite dirname_root).
    unfold isWordPressProject in Hmark. by rewrite Hmark.
Qed.

(** [getProjectPath] gives up exactly when no directory from the working
    directory up, the root left out, has a marker and the working directory
    has no [wp-config.php].  So the root is never found from below, and at
    the root a [.wordsmith.json] alone is not enough. *)
Theorem getProjectPath_exit cwd :
  getProjectPath existsSync cwd = None ↔
  (∀ d, d `prefix_of` cwd → d ≠ [] →
     isWordPressProject existsSync d = false) ∧
  existsSync (join cwd "wp-config.php") = false.
Proof.
  unfold getProjectPath. split.
  - destruct (walk existsSync (S (length cwd)) cwd) as [d0|] eqn:Hwalk;
      [done|].
    destruct (existsSync (join cwd "wp-config.php")) eqn:Hconf; [done|].
    intros _. split; [|done]. apply (walk_None (S (length cwd))); [lia|done].
  - intros [Hnone ->].
    destruct (walk existsSync (S (length cwd)) cwd) as [d0|] eqn:Hwalk;
      [|done].
    destruct (walk_Some _ _ _ Hwalk) as (Hne & Hpre & Hd & _).
    by rewrite (Hnone d0 Hpre Hne) in Hd.
Qed.

End ProjectPath.

Section RelativeTime.

Import Utils.

Local Open Scope Z_scope.

(** The unit of a relative time is fixed by the age in milliseconds, however
    the code nests its roundings: under one minute (a date in the future
    included) the text is "just now"; then it counts whole minutes up to the
    hour, whole hours up to the day, and whole days from there, with an "s"
    from two on. *)
Theorem formatRelativeTime_units (now date : Z) :
  let diff := now - date in
  let text (count : Z) (unit : string) :=
    pretty count +:+ unit +:+ (if 1 <? count then "s" else "") +:+ " ago" in
  (diff < 60000 → formatRelativeTime now date = "just now") ∧
  (60000 ≤ diff < 3600000 →
     formatRelativeTime now date = text (diff / 60000) " min") ∧
  (3600000 ≤ diff < 86400000 →
     formatRelativeTime now date = text (diff / 3600000) " hour") ∧
  (86400000 ≤ diff →
     formatRelativeTime now date = text (diff / 86400000) " day").
Proof.
  intros diff text. unfold formatRelativeTime. fold diff.
  rewrite !Zdiv.Zdiv_Zdiv by lia.
  change (1000 * (60 * (60 * 24))) with 86400000.
  change (1000 * (60 * 60)) with 3600000.
  change (1000 * 60) with 60000.
  split_and!; intros Hdiff.
  - assert (diff / 86400000 ≤ 0) by (apply Z.lt_succ_r, Z.div_lt_upper_bound; lia).
    assert (diff / 3600000 ≤ 0) by (apply Z.lt_succ_r, Z.div_lt_upper_bound; lia).
    assert (diff / 60000 ≤ 0) by (apply Z.lt_succ_r, Z.div_lt_upper_bound; lia).
    by rewrite !(proj2 (Z.ltb_ge 0 _)).
  - assert (diff / 86400000 ≤ 0) by (apply Z.lt_succ_r, Z.div_lt_upper_bound; lia).
    assert (diff / 3600000 ≤ 0) by (apply Z.lt_succ_r, Z.div_lt_upper_bound; lia).
    assert (0 < diff / 60000) by (apply Z.div_str_pos; lia).
    rewrite !(proj2 (Z.ltb_ge 0 (diff / 86400000))) by done.
    rewrite !(proj2 (Z.ltb_ge 0 (diff / 3600000))) by done.
    by rewrite (proj2 (Z.ltb_lt 0 (diff / 60000))).
  - assert (diff / 86400000 ≤ 0) by (apply Z.lt_succ_r, Z.div_lt_upper_bound; lia).
    assert (0 < diff / 3600000) by (apply Z.div_str_pos; lia).
    rewrite !(proj2 (Z.ltb_ge 0 (diff / 86400000))) by done.
    by rewrite (proj2 (Z.ltb_lt 0 (diff / 3600000))).
  - assert (0 < diff / 86400000) by (apply Z.div_str_pos; lia).
    by rewrite (proj2 (Z.ltb_lt 0 (diff / 86400000))).
Qed.

End RelativeTime.

(** * The WP-CLI arguments and the generated configuration *)

Section WpCliArguments.

Import WpCli.

Implicit Types (out path : string) (cache : option string).
Implicit Types (which : Res string) (args words : list string).

(** The path of WP-CLI is looked up until a lookup gives a path that is not
    blank, and never again after that: every later argument list is built
    with that path, whatever [which] would answer.  A lookup that fails
    gives "wp" and is not remembered, and neither is a blank answer. *)
Theorem wp_path_cached :
  (∀ out cache which args,
     given cache = None → trim out ≠ "" →
     buildWpArgs which (findWpCliPath (Ok out) cache).2 args
       = (["-d"; "memory_limit=512M"; trim out] ++ args, Some (trim out))) ∧
  (∀ e cache which,
     given cache = None →
     (findWpCliPath (Throw e) cache).1 = "wp" ∧
     findWpCliPath which (findWpCliPath (Throw e) cache).2
       = findWpCliPath which cache) ∧
  (∀ out cache which,
     given cache = None → trim out = "" →
     (findWpCliPath which (findWpCliPath (Ok out) cache).2).1
       = (findWpCliPath which None).1).
Proof.
  split_and!.
  - intros out cache which args Hcache Hout%String.eqb_neq.
    unfold buildWpArgs, getWpCliPrefixArgs, findWpCliPath.
    rewrite Hcache. simpl. by rewrite Hout.
  - intros e cache which Hcache. unfold findWpCliPath.
    rewrite Hcache. simpl. by rewrite Hcache.
  - intros out cache which Hcache Hout. unfold findWpCliPath.
    rewrite Hcache. simpl. rewrite Hout. simpl. by destruct which.
Qed.

Lemma split_space_cons s : ∃ word words, split_space s = word :: words.
Proof.
  destruct s as [|c s]; simpl; [by eexists _, _|].
  destruct (Ascii.eqb c space); [by eexists _, _|].
  destruct (split_space s); by eexists _, _.
Qed.

Lemma concat_cons_char c word words :
  String.concat " " (String c word :: words)
    = String c (String.concat " " (word :: words)).
Proof. by destruct words. Qed.

Lemma concat_split_space s : String.concat " " (split_space s) = s.
Proof.
  induction s as [|c s IH]; [done|]. simpl.
  destruct (split_space_cons s) as (word & words & Hs). rewrite Hs in *.
  destruct (Ascii.eqb c space) eqn:Hc.
  - apply Ascii.eqb_eq in Hc as ->.
    change (String.concat " " ("" :: word :: words))
      with (String space (String.concat " " (word :: words))).
    by rewrite IH.
  - by rewrite concat_cons_char, IH.
Qed.

Lemma split_space_no_space s :
  Forall (λ word, has_space word = false) (split_space s).
Proof.
  induction s as [|c s IH]; simpl; [by repeat constructor|].
  destruct (Ascii.eqb c space) eqn:Hc; [by constructor|].
  destruct (split_space s) as [|word words].
  { repeat constructor. simpl. by rewrite Hc. }
  apply Forall_cons in IH as [Hword Hwords].
  constructor; [|done]. simpl. by rewrite Hc.
Qed.

Lemma split_space_whole s : has_space s = false → split_space s = [s].
Proof.
  induction s as [|c s IH]; simpl; [done|].
  destruct (Ascii.eqb c space); [done|]. simpl. intros Hs. by rewrite IH.
Qed.

(** The command of a seeder step is cut at every single space and at
    nothing else: the words, joined by spaces, are the command again, no
    word has a space, a command without a space is one word, and the
    project path follows as the last argument. *)
Theorem seeder_args projectPath command :
  ∃ words,
    seederArgs projectPath command = words ++ ["--path=" +:+ projectPath] ∧
    words ≠ [] ∧
    String.concat " " words = command ∧
    Forall (λ word, has_space word = false) words ∧
    (has_space command = false → words = [command]).
Proof.
  exists (split_space command). split_and!.
  - done.
  - by destruct (split_space_cons command) as (? & ? & ->).
  - apply concat_split_space.
  - apply split_space_no_space.
  - apply split_space_whole.
Qed.

End WpCliArguments.

Section WpConfigText.

Import WpConfig.

Implicit Types (pattern replacement s before after config : string).

Lemma strip_prefix_Some pattern s rest :
  strip_prefix pattern s = Some rest ↔ s = pattern +:+ rest.
Proof.
  revert s. induction pattern as [|a pattern IH]; intros s; simpl.
  - split; [by intros [= ->]|by intros ->].
  - destruct s as [|b s]; [done|]. rewrite string_app_cons.
    destruct (Ascii.eqb a b) eqn:Hab.
    + apply Ascii.eqb_eq in Hab as ->. rewrite IH.
      split; [by intros ->|by intros [= ->]].
    + apply Ascii.eqb_neq in Hab. split; [done|]. by intros [= -> _].
Qed.

Lemma strip_prefix_occurs pattern s rest :
  strip_prefix pattern s = Some rest → occurs pattern s.
Proof. intros Hp%strip_prefix_Some. by exists "", rest. Qed.

Lemma replace_first_absent pattern replacement s :
  ¬ occurs pattern s → replace_first pattern replacement s = s.
Proof.
  induction s as [|c s IH]; intros Hno.
  - simpl. destruct (strip_prefix pattern "") as [rest|] eqn:Hp; [|done].
    destruct Hno. by apply (strip_prefix_occurs _ _ rest).
  - cbn [replace_first].
    destruct (strip_prefix pattern (String c s)) as [rest|] eqn:Hp.
    + destruct Hno. by apply (strip_prefix_occurs _ _ rest).
    + f_equal. apply IH. intros (before & after & ->). apply Hno.
      by exists (String c before), after.
Qed.

Lemma replace_first_at pattern replacement before after :
  (∀ before' after',
     before +:+ pattern +:+ after = before' +:+ pattern +:+ after' →
     (String.length before ≤ String.length before')%nat) →
  replace_first pattern replacement (before +:+ pattern +:+ after)
    = before +:+ replacement +:+ after.
Proof.
  induction before as [|c before IH]; intros Hfirst.
  - change ("" +:+ pattern +:+ after) with (pattern +:+ after).
    change ("" +:+ replacement +:+ after) with (replacement +:+ after).
    pose proof (proj2 (strip_prefix_Some pattern _ after) eq_refl) as Hp.
    destruct (pattern +:+ after); cbn [replace_first]; by rewrite Hp.
  - rewrite !string_app_cons. cbn [replace_first].
    destruct (strip_prefix pattern (String c (before +:+ pattern +:+ after)))
      as [rest|] eqn:Hp.
    + apply strip_prefix_Some in Hp.
      specialize (Hfirst "" rest). rewrite string_app_cons in Hfirst.
      specialize (Hfirst Hp). simpl in Hfirst. lia.
    + f_equal. apply IH. intros before' after' Heq.
      specialize (Hfirst (String c before') after').
      rewrite !string_app_cons, Heq in Hfirst. specialize (Hfirst eq_refl).
      simpl in Hfirst. lia.
Qed.

(** The SQLite and debug settings go in front of the first "That's all, stop
    editing!" comment of the generated file and the rest of the file is
    kept; a file without that comment is written back as it is, without the
    settings.  A port that is missing or 0 is 9400 and a missing debug flag
    is true. *)
Theorem configText_inserts port debug config :
  (¬ occurs stop_editing config → configText port debug config = config) ∧
  (∀ before after,
     config = before +:+ stop_editing +:+ after →
     (∀ before' after',
        config = before' +:+ stop_editing +:+ after' →
        (String.length before ≤ String.length before')%nat) →
     ∃ p, configText port debug config
       = before +:+ (extraConfig p (default true debug) +:+ newline
                     +:+ stop_editing) +:+ after ∧
       p ≠ 0%Z ∧ (∀ q, port = Some q → q ≠ 0%Z → p = q) ∧
       (port = None ∨ port = Some 0%Z → p = 9400%Z)).
Proof.
  split.
  - intros Hno. by apply replace_first_absent.
  - intros before after -> Hfirst. unfold configText.
    rewrite replace_first_at by done. eexists. split; [done|].
    destruct port as [q|]; [destruct (Z.eqb_spec q 0) as [->|Hq]|].
    + split_and!; [done| |done]. by intros q [= <-].
    + split_and!; [done| |]. { by intros q' [= <-]. }
      intros [|[=]]; done.
    + by split_and!.
Qed.

End WpConfigText.

(** * The further properties at the sample data *)

Import Samples.

Example project_found :
  Utils.getProjectPath Utils.sample_exists
    ["home"; "me"; "site"; "wp-content"; "plugins"]
    = Some ["home"; "me"; "site"] ∧
  Utils.getProjectPath Utils.sample_exists ["home"; "me"] = None ∧
  Utils.getProjectPath
    (λ p, bool_decide (p = [".wordsmith.json"])) ["home"] = None ∧
  Utils.getProjectPath (λ p, bool_decide (p = [".wordsmith.json"])) [] = None ∧
  Utils.getProjectPath (λ p, bool_decide (p = ["wp-config.php"])) [] = Some [].
Proof. vm_compute. done. Qed.

Example relative_times :
  Utils.formatRelativeTime 1000000 940001 = "just now" ∧
  Utils.formatRelativeTime 1000000 940000 = "1 min ago" ∧
  Utils.formatRelativeTime 1000000 2000000 = "just now" ∧
  Utils.formatRelativeTime 7200000 0 = "2 hours ago" ∧
  Utils.formatRelativeTime 86400000 0 = "1 day ago".
Proof. vm_compute. done. Qed.

Example seeder_quotes :
  WpCli.seederArgs "/site" "post create --post_title='About us'"
    = ["post"; "create"; "--post_title='About"; "us'"; "--path=/site"].
Proof. vm_compute. done. Qed.

(** [checkpoint x] where [meta.json] is [{}]: the command fails and the
    snapshot file stays behind. *)
Lemma create_outcome_witness :
  (checkpointCreate site 7 noon (Some "x") None site_no_index).1
    = Failure IOFailure ∧
  (checkpointCreate site 7 noon (Some "x") None site_no_index).2
    !! snapshotPath site "x" = site_no_index !! getDatabasePath site.
Proof.
  pose proof (create_outcome site 7 noon (Some "x") None site_no_index) as H.
  cbv zeta in H.
  destruct H as (_ & _ & Hio & _ & _ & Hleft); [by intros n [= <-]|].
  assert ((checkpointCreate site 7 noon (Some "x") None site_no_index).1
            = Failure IOFailure) as Hfail.
  { apply Hio. split_and!; [vm_compute; eauto|vm_compute; reflexivity..]. }
  split; [exact Hfail|]. by destruct (Hleft Hfail).
Defined.

(** After [checkpoint x] in the fresh project. *)
Lemma create_effect_witness :
  index site site_x = index site fresh_site ++ [entry_of "x"] ∧
  site_x !! snapshotPath site "x" = fresh_site !! getDatabasePath site.
Proof.
  destruct (create_effect site 7 noon (Some "x") None fresh_site site_x)
    as (_ & _ & _ & Hsnap & Hidx & _);
    [by intros n [= <-]|vm_compute; reflexivity|].
  split; [exact Hidx | exact Hsnap].
Defined.

(** Clearing the project with the checkpoints "x" and "y". *)
Lemma clear_total_witness :
  ∃ fs', checkpointClear site true site_xy = (Success, fs') ∧
    index site fs' = [] ∧
    (∀ p, p ∈ livePaths site → fs' !! p = site_xy !! p).
Proof.
  destruct (clear_total site site_xy) as [H _]; [vm_compute; discriminate|].
  destruct H as (fs' & H1 & H2 & _ & _ & _ & H6).
  - vm_compute; discriminate.
  - replace (index site site_xy) with [entry_of "x"; entry_of "y"]
      by (vm_compute; reflexivity).
    repeat constructor; vm_compute; discriminate.
  - exists fs'. split; [exact H1|]. split; [exact H2 | exact H6].
Defined.

(** Deleting "y" where the index is "x", "y". *)
Lemma delete_effect_witness :
  ∃ fs', checkpointDelete site "y" site_xy = (Success, fs') ∧
    index site fs' = [entry_of "x"] ∧
    fs' !! snapshotPath site "y" = None.
Proof.
  destruct (delete_effect site site_xy "y") as [_ H];
    [vm_compute; discriminate|].
  destruct (H [entry_of "x"] (entry_of "y") [])
    as (fs' & H1 & H2 & H3 & _).
  - vm_compute; reflexivity.
  - constructor; [vm_compute; discriminate | constructor].
  - reflexivity.
  - vm_compute. split_and!; (discriminate || reflexivity).
  - exists fs'. split; [exact H1|]. split; [exact H2|].
    apply H3. vm_compute; discriminate.
Defined.

(** "x" is deleted and created again. *)
Lemma delete_frees_name_witness :
  ∃ fs1 fs2,
    checkpointDelete site "x" site_xy = (Success, fs1) ∧
    checkpointCreate site 9 noon (Some "x") None fs1 = (Success, fs2).
Proof.
  apply (delete_frees_name site 9 noon None site_xy "x" (entry_of "x")).
  - discriminate.
  - reflexivity.
  - vm_compute. eauto.
  - vm_compute. repeat constructor.
  - replace (index site site_xy) with [entry_of "x"; entry_of "y"]
      by (vm_compute; reflexivity).
    left.
  - reflexivity.
Defined.

(** Rolling back to "y". *)
Lemma restore_effect_witness :
  ∃ cp, select (Some "y") (index site site_xy) = Some cp ∧
    (checkpointRestore site (Some "y") site_xy).2 !! getDatabasePath site
      = site_xy !! path_join (getCheckpointsPath site) (file cp).
Proof.
  pose proof (restore_effect site (Some "y") site_xy) as H. cbv zeta in H.
  destruct H as (_ & _ & _ & H).
  - replace (index site site_xy) with [entry_of "x"; entry_of "y"]
      by (vm_compute; reflexivity).
    repeat constructor; vm_compute; discriminate.
  - destruct H as (cp & H1 & _ & H3 & _); [vm_compute; reflexivity|].
    exists cp. split; [exact H1 | exact H3].
Defined.

(** The fresh project is consistent, and so it is after [checkpoint x]. *)
Lemma reachable_consistent_witness :
  consistent site (run site (Create 7 noon (Some "x") None) fresh_site).2.
Proof.
  assert (Hnil : index site fresh_site = []) by (vm_compute; reflexivity).
  apply (reachable_consistent site fresh_site).
  - unfold consistent, backed, derived_files. rewrite Hnil.
    split_and!; constructor.
  - unfold plain_files. rewrite Hnil. constructor.
  - apply reachable_run; [by intros n [= <-]|apply reachable_start].
Defined.

(** The one checkpoint of [site_x] can be restored. *)
Lemma restore_listed_witness :
  ∃ fs', checkpointRestore site None site_x = (Success, fs') ∧
    is_Some (fs' !! getDatabasePath site).
Proof.
  assert (Hidx : index site site_x = [entry_of "x"])
    by (vm_compute; reflexivity).
  refine (proj2 (restore_listed site site_x _) _).
  - unfold consistent, backed, derived_files. rewrite Hidx. split_and!.
    + repeat constructor.
    + constructor; [vm_compute; discriminate | constructor].
    + apply NoDup_singleton.
    + constructor; [vm_compute; eauto | constructor].
  - rewrite Hidx. discriminate.
Defined.

(** Saving the WordPress version twice where there was no file. *)
Lemma saveBlueprint_idempotent_witness :
  saveBlueprint (Parsed (JObj (merge DEFAULT_BLUEPRINT wp_update))) wp_update
    = Ok (Parsed (JObj (merge DEFAULT_BLUEPRINT wp_update))).
Proof.
  apply (saveBlueprint_idempotent Absent wp_update). vm_compute; reflexivity.
Defined.

(** Saving the WordPress version over a file that is not JSON. *)
Lemma saveBlueprint_written_witness :
  ∃ saved,
    Parsed (JObj (merge DEFAULT_BLUEPRINT wp_update)) = Parsed (JObj saved) ∧
    saved = merge DEFAULT_BLUEPRINT wp_update.
Proof.
  destruct (saveBlueprint_written Malformed wp_update
              (Parsed (JObj (merge DEFAULT_BLUEPRINT wp_update))))
    as (saved & pv & ext & Hd & _ & _ & _ & Hmerge);
    [vm_compute; reflexivity|].
  exists saved. split; [exact Hd|]. apply Hmerge. discriminate.
Defined.

(** [wpsmith new --port=abc --with-gutenberg]: the port read back is
    [null]. *)
Lemma new_blueprint_round_trip_witness :
  ∃ doc,
    loadBlueprint
      (Parsed (JObj (merge DEFAULT_BLUEPRINT (New.blueprintOf new_options None))))
      = Ok doc ∧
    getPluginsFromBlueprint doc = Ok [JStr "woocommerce"; JStr "gutenberg"] ∧
    props (doc !! "wpsmith") !! "port" = Some JNull.
Proof.
  destruct (new_blueprint_round_trip Absent new_options None
              (Parsed (JObj (merge DEFAULT_BLUEPRINT
                               (New.blueprintOf new_options None)))))
    as (doc & Hload & Hplugins & _ & _ & _ & Hport & _);
    [vm_compute; reflexivity|].
  exists doc. split; [exact Hload|]. split; [exact Hplugins|].
  by apply Hport.
Defined.

(** A [null] step after an install-plugin step. *)
Lemma getPlugins_failures_witness :
  getPluginsFromBlueprint
    (<["steps" := JArr ([install_plugin_step "a"] ++ JNull :: [])]> ∅)
    = Throw TypeError.
Proof.
  destruct getPlugins_failures as (_ & _ & _ & H). apply H. by left.
Defined.

(** [wpsmith serve --xdebug] with an empty [preferredVersions]. *)
Lemma serve_default_versions_witness :
  Serve.serveArgs site serve_xdebug no_versions_loaded 9400%N =
    [ "--yes"; "@wp-playground/cli"; "server";
      "--wordpress-install-mode=do-not-attempt-installing";
      "--skip-sqlite-setup";
      "--mount=" +:+ site +:+ ":/wordpress";
      "--port=" +:+ pretty 9400%N;
      "--php=8.3" ]
    ++ (if Serve.xdebug serve_xdebug then ["--xdebug"] else []) ++ ["--login"].
Proof.
  apply (serve_default_versions site (Parsed no_versions)).
  - vm_compute; reflexivity.
  - right. exists ∅. split_and!; vm_compute; reflexivity.
  - reflexivity.
  - reflexivity.
Defined.

(** [wpsmith serve] and [db:fresh] with an empty [wpsmith]. *)
Lemma port_fallbacks_witness :
  Serve.requestedPortText serve_xdebug no_port_loaded = "undefined" ∧
  Serve.freshUrl no_port_loaded = "--url=http://localhost:9400".
Proof.
  destruct (port_fallbacks (Parsed no_port) no_port_loaded serve_xdebug)
    as [_ H]; [vm_compute; reflexivity|].
  destruct (H eq_refl) as [Hempty _].
  apply (Hempty no_port ∅); vm_compute; reflexivity.
Defined.

Import Utils WpCli WpConfig.

(** From [wp-content/plugins] the project is found two directories up, and
    [wp-content] in between is no project. *)
Lemma getProjectPath_nearest_witness :
  isWordPressProject sample_exists ["home"; "me"; "site"; "wp-content"]
    = false.
Proof.
  destruct (getProjectPath_nearest sample_exists
              ["home"; "me"; "site"; "wp-content"; "plugins"]) as [H _].
  destruct (H ["home"; "me"; "site"]) as (_ & _ & _ & Hn);
    [vm_compute; reflexivity|].
  apply Hn.
  - by exists ["wp-content"].
  - by exists ["plugins"].
  - discriminate.
Defined.

(** Two hours. *)
Lemma formatRelativeTime_units_witness :
  formatRelativeTime 7200000%Z 0%Z = "2 hours ago".
Proof.
  pose proof (formatRelativeTime_units 7200000%Z 0%Z) as H. cbv zeta in H.
  destruct H as (_ & _ & H & _). rewrite H by lia. vm_compute; reflexivity.
Defined.

(** The first lookup finds WP-CLI; the second would fail and is not made. *)
Lemma wp_path_cached_witness :
  buildWpArgs (Throw IOError)
    (findWpCliPath (Ok "/usr/bin/wp
") None).2 ["plugin"; "list"]
  = (["-d"; "memory_limit=512M"; "/usr/bin/wp"; "plugin"; "list"],
     Some "/usr/bin/wp").
Proof.
  destruct wp_path_cached as (H & _).
  apply (H "/usr/bin/wp
" None (Throw IOError) ["plugin"; "list"]).
  - reflexivity.
  - vm_compute; discriminate.
Defined.

(** The generated file, with [port] 0 and no [debug]. *)
Lemma configText_inserts_witness :
  ∃ p, configText (Some 0%Z) None generated_config
    = "<?php
$table_prefix = 'wp_';
" +:+ (extraConfig p true +:+ newline +:+ stop_editing) +:+
      " Happy publishing. */
require_once ABSPATH . 'wp-settings.php';
" ∧ p = 9400%Z.
Proof.
  destruct (configText_inserts (Some 0%Z) None generated_config) as [_ H].
  destruct (H "<?php
$table_prefix = 'wp_';
" " Happy publishing. */
require_once ABSPATH . 'wp-settings.php';
") as (p & H1 & _ & _ & H4).
  - vm_compute; reflexivity.
  - intros b a Hb. unfold generated_config, stop_editing in Hb.
    repeat (destruct b as [|? b];
            [ cbv [String.append] in Hb; discriminate Hb
            | rewrite string_app_cons in Hb; injection Hb as _ Hb ]).
    simpl. lia.
  - exists p. split; [exact H1 | apply H4; by right].
Defined.
